(** * SmallVCM scene layer ([src/scene.hxx]): a shallow embedding

    The class [Scene] aggregates geometry, materials and lights and
    answers closest-hit ([Intersect]) and any-hit ([Occluded]) queries.
    This file embeds its member functions as Rocq functions and proves
    the properties its specification states about them.

    Conventions of the embedding.
    - [float] is IEEE 754 binary32, computed with the Standard Library's
      [SpecFloat] (round to nearest, ties to even; one NaN, no payload).
      Every C++ [float] expression is evaluated in binary32, operation by
      operation, with no contraction and no extended precision.
    - [int] and [uint] are 32 bits wide, [size_t] is 64 bits wide; they
      are integers in [Z] with the conversions written out.
    - A pointer that may be null is an [option]; undefined behaviour
      (dereferencing a null pointer, indexing a vector out of range) is
      the outcome [Fault].
    - [const] member functions take the scene and do not return one;
      the others return the updated scene. *)

From Stdlib Require Import ZArith String Ascii List.
From Stdlib Require Import Floats.SpecFloat.
From stdpp Require Import base option list gmap.

Set Warnings "-register-all".

Local Open Scope Z_scope.

(** ** Binary32 arithmetic *)

Module F32.

Definition prec : Z := 24.
Definition emax : Z := 128.

Definition float : Type := spec_float.

Definition add : float -> float -> float := SFadd prec emax.
Definition sub : float -> float -> float := SFsub prec emax.
Definition mul : float -> float -> float := SFmul prec emax.
Definition div : float -> float -> float := SFdiv prec emax.
Definition sqrt : float -> float := SFsqrt prec emax.
Definition neg : float -> float := SFopp.
Definition ltb : float -> float -> bool := SFltb.

(** Conversion of an integer ([float(n)], or an integer literal used
    where a float is expected). *)
Definition of_Z (n : Z) : float := binary_normalize prec emax n 0 false.

(** The decimal literal [m]e[e], that is [m * 10^e], rounded once. For a
    negative exponent the quotient [m / 10^(-e)] is taken by the
    division algorithm on the two integers, which rounds the exact
    quotient. *)
Definition dec (m : positive) (e : Z) : float :=
  match e with
  | Zneg k => div (S754_finite false m 0) (S754_finite false (10 ^ k)%positive 0)
  | _ => of_Z (Zpos m * 10 ^ e)
  end.

Definition zero : float := S754_zero false.
Definition one : float := of_Z 1.
Definition half : float := dec 5 (-1).

Definition is_zero (f : float) : bool :=
  match f with S754_zero _ => true | _ => false end.

#[global] Instance float_eq_dec : EqDecision float.
Proof. solve_decision. Defined.

End F32.

Abbreviation float := F32.float.

(** ** Vectors *)

(** Modelled from the spec: [math.hxx] is not among the sources. [Vec3f]
    is the 3-vector of floats with componentwise [+], [-] and product by a
    scalar; [Vec3f(a)] fills the three components with [a]; [LenSqr] is
    the dot product of the vector with itself, [x*x + y*y + z*z] summed
    left to right; [Sqr(a)] is [a*a]. [Vec2i] and [Vec2f] are pairs. *)

Module Vec3f.

Record t : Type := mk { x : float; y : float; z : float }.

Definition splat (a : float) : t := mk a a a.

Definition add (a b : t) : t :=
  mk (F32.add (x a) (x b)) (F32.add (y a) (y b)) (F32.add (z a) (z b)).

Definition sub (a b : t) : t :=
  mk (F32.sub (x a) (x b)) (F32.sub (y a) (y b)) (F32.sub (z a) (z b)).

Definition scale (a : t) (k : float) : t :=
  mk (F32.mul (x a) k) (F32.mul (y a) k) (F32.mul (z a) k).

Definition LenSqr (a : t) : float :=
  F32.add (F32.add (F32.mul (x a) (x a)) (F32.mul (y a) (y a)))
          (F32.mul (z a) (z a)).

#[global] Instance eq_dec : EqDecision t.
Proof. solve_decision. Defined.

End Vec3f.

Abbreviation Vec3f := Vec3f.t.

Definition Sqr (a : float) : float := F32.mul a a.

Record Vec2i : Type := mkVec2i { x2i : Z; y2i : Z }.
Record Vec2f : Type := mkVec2f { x2f : float; y2f : float }.

(** ** Rays and intersection records *)

(** Modelled from the spec: the declarations of [Ray] and [Isect] are not
    among the sources. A ray is an origin, a direction and a minimum
    parametric distance; an intersection record is the distance to the
    hit, the material id and the light id of the surface, and its
    normal. *)

Record Ray : Type := mkRay { org : Vec3f; dir : Vec3f; tmin : float }.

Record Isect : Type := mkIsect {
  dist : float;
  matID : Z;
  lightID : Z;
  normal : Vec3f
}.

Definition set_dist (d : float) (i : Isect) : Isect :=
  mkIsect d (matID i) (lightID i) (normal i).

Definition set_lightID (l : Z) (i : Isect) : Isect :=
  mkIsect (dist i) (matID i) l (normal i).

(** ** Geometry, materials, lights, camera

    The scene stores pointers to objects of the classes below. Their
    constructors and virtual member functions are declared in headers
    ([geometry.hxx], [materials.hxx], [lights.hxx], [camera.hxx]) that are
    not among the sources, so an object is represented by the
    arguments of its constructor and the public fields the scene assigns;
    the member functions the scene calls are parameters ([Externals]
    below). *)

Inductive AbstractGeometry : Type :=
| Triangle (p0 p1 p2 : Vec3f) (aMatID : Z)
| Sphere (aCenter : Vec3f) (aRadius : float) (aMatID : Z)
| GeometryList (prims : list AbstractGeometry).

Record Material : Type := mkMaterial {
  mDiffuseReflectance : Vec3f;
  mPhongReflectance : Vec3f;
  mGlossiness : float;
  mMirrorReflectance : Vec3f;
  mIOR : float
}.

Definition set_mDiffuseReflectance (v : Vec3f) (m : Material) : Material :=
  mkMaterial v (mPhongReflectance m) (mGlossiness m) (mMirrorReflectance m) (mIOR m).
Definition set_mPhongReflectance (v : Vec3f) (m : Material) : Material :=
  mkMaterial (mDiffuseReflectance m) v (mGlossiness m) (mMirrorReflectance m) (mIOR m).
Definition set_mGlossiness (g : float) (m : Material) : Material :=
  mkMaterial (mDiffuseReflectance m) (mPhongReflectance m) g (mMirrorReflectance m) (mIOR m).
Definition set_mMirrorReflectance (v : Vec3f) (m : Material) : Material :=
  mkMaterial (mDiffuseReflectance m) (mPhongReflectance m) (mGlossiness m) v (mIOR m).
Definition set_mIOR (i : float) (m : Material) : Material :=
  mkMaterial (mDiffuseReflectance m) (mPhongReflectance m) (mGlossiness m)
             (mMirrorReflectance m) i.

Record BackgroundLight : Type := mkBackgroundLight { mScale : float }.

Inductive AbstractLight : Type :=
| AreaLight (p0 p1 p2 : Vec3f) (mIntensity : Vec3f)
| DirectionalLight (aDirection : Vec3f) (mIntensity : Vec3f)
| PointLight (aPosition : Vec3f) (mIntensity : Vec3f)
| Background (l : BackgroundLight).

(** The camera is known to the scene only through [Setup]: it is kept as
    the arguments of the last call, or as not set up yet. *)
Inductive Camera : Type :=
| Camera_unset
| Camera_Setup (aPosition aForward aUp : Vec3f) (aResolution : Vec2f)
               (aHorizontalFOV : float).

Record SceneSphere : Type := mkSceneSphere {
  mSceneCenter : Vec3f;
  mSceneRadius : float;
  mInvSceneRadiusSqr : float
}.

(** ** What the scene takes from the other headers

    [EPS_RAY] and [INV_PI_F] are constants of type [float]; [Material()]
    and [Material::Reset] initialise a material; the three virtual member
    functions of [AbstractGeometry] take their reference arguments and
    give them back updated, next to the returned value. *)

Class Externals : Type := {
  EPS_RAY : float;
  INV_PI_F : float;
  Material_new : Material;
  Material_Reset : Material -> Material;
  geomIntersect : AbstractGeometry -> Ray -> Isect -> bool * Isect;
  geomIntersectP : AbstractGeometry -> Ray -> Isect -> bool * Isect;
  geomGrowBBox : AbstractGeometry -> Vec3f -> Vec3f -> Vec3f * Vec3f
}.

(** ** Outcomes *)

Inductive Undefined : Type := NullDereference | IndexOutOfRange.

Inductive Outcome (A : Type) : Type :=
| Done (a : A)
| Fault (u : Undefined).

Arguments Done {A} a.
Arguments Fault {A} u.

(** ** Integer conversions *)

Definition to_int (n : Z) : Z := (n + 2 ^ 31) mod 2 ^ 32 - 2 ^ 31.
Definition to_uint (n : Z) : Z := n mod 2 ^ 32.
Definition to_size_t (n : Z) : Z := n mod 2 ^ 64.

Definition in_int (n : Z) : Prop := - 2 ^ 31 <= n < 2 ^ 31.

(** [v[i]] on a [std::vector] with an [int] index: the index is converted
    to [size_t]; outside the vector the access is undefined. *)
Definition vector_at {A : Type} (v : list A) (i : Z) : Outcome A :=
  match v !! Z.to_nat (to_size_t i) with
  | Some a => Done a
  | None => Fault IndexOutOfRange
  end.

(** [v.resize(n)]: truncates, or pads with value-initialised elements. *)
Definition vector_resize {A : Type} (n : nat) (d : A) (v : list A) : list A :=
  take n v ++ replicate (n - length v) d.

(** [m.insert(std::make_pair(k, v))] on a [std::map]: the entry is added
    only when the key has none. *)
Definition map_insert (k v : Z) (m : gmap Z Z) : gmap Z Z :=
  match m !! k with
  | Some _ => m
  | None => <[k := v]> m
  end.

(** ** The scene *)

Record Scene : Type := mkScene {
  mGeometry : option AbstractGeometry;
  mCamera : Camera;
  mMaterials : list Material;
  mLights : list (option AbstractLight);
  mMaterial2Light : gmap Z Z;
  mSceneSphere : SceneSphere;
  mBackground : option BackgroundLight
}.

Definition set_mGeometry (g : option AbstractGeometry) (s : Scene) : Scene :=
  mkScene g (mCamera s) (mMaterials s) (mLights s) (mMaterial2Light s)
          (mSceneSphere s) (mBackground s).
Definition set_mCamera (c : Camera) (s : Scene) : Scene :=
  mkScene (mGeometry s) c (mMaterials s) (mLights s) (mMaterial2Light s)
          (mSceneSphere s) (mBackground s).
Definition set_mMaterials (m : list Material) (s : Scene) : Scene :=
  mkScene (mGeometry s) (mCamera s) m (mLights s) (mMaterial2Light s)
          (mSceneSphere s) (mBackground s).
Definition set_mLights (l : list (option AbstractLight)) (s : Scene) : Scene :=
  mkScene (mGeometry s) (mCamera s) (mMaterials s) l (mMaterial2Light s)
          (mSceneSphere s) (mBackground s).
Definition set_mMaterial2Light (m : gmap Z Z) (s : Scene) : Scene :=
  mkScene (mGeometry s) (mCamera s) (mMaterials s) (mLights s) m
          (mSceneSphere s) (mBackground s).
Definition set_mSceneSphere (b : SceneSphere) (s : Scene) : Scene :=
  mkScene (mGeometry s) (mCamera s) (mMaterials s) (mLights s)
          (mMaterial2Light s) b (mBackground s).
Definition set_mBackground (b : option BackgroundLight) (s : Scene) : Scene :=
  mkScene (mGeometry s) (mCamera s) (mMaterials s) (mLights s)
          (mMaterial2Light s) (mSceneSphere s) b.

(** [Scene() : mGeometry(NULL), mBackground(NULL)]. The containers start
    empty; the scene sphere is a plain structure the constructor leaves
    with the contents [sphere0] it happens to have. *)
Definition Scene_new (sphere0 : SceneSphere) : Scene :=
  mkScene None Camera_unset [] [] ∅ sphere0 None.

(** [enum BoxMask] *)
Definition LightCeiling : Z := 1.
Definition LightSun : Z := 2.
Definition LightPoint : Z := 4.
Definition LightBackground : Z := 8.
Definition BallLargeMirror : Z := 16.
Definition BallLargeGlass : Z := 32.
Definition BallMirror : Z := 64.
Definition BallGlass : Z := 128.
Definition Default : Z := Z.lor LightCeiling (Z.lor BallMirror BallGlass).
Definition BothLargeBalls : Z := Z.lor BallLargeMirror BallLargeGlass.

Definition newline : string := String (ascii_of_nat 10) EmptyString.

Definition both_balls_notice : string :=
  String.append "Cannot have both large balls, using mirror" newline.

Section SceneMethods.

Context {E : Externals}.

Definition Intersect (s : Scene) (aRay : Ray) (oResult : Isect)
  : Outcome (bool * Isect) :=
  match mGeometry s with
  | None => Fault NullDereference
  | Some g =>
      let '(hit, oResult) := geomIntersect g aRay oResult in
      if hit then
        let oResult := set_lightID (-1) oResult in
        match mMaterial2Light s !! matID oResult with
        | Some second => Done (hit, set_lightID second oResult)
        | None => Done (hit, oResult)
        end
      else Done (hit, oResult)
  end.

(** [Isect isect;] declares the record without initialising it: its
    contents before [dist] is assigned are the argument [isect0]. *)
Definition Occluded (s : Scene) (isect0 : Isect)
  (aPoint aDir : Vec3f) (aTMax : float) : Outcome bool :=
  let ray := mkRay (Vec3f.add aPoint (Vec3f.scale aDir EPS_RAY)) aDir (F32.of_Z 0) in
  let isect := set_dist (F32.sub aTMax (F32.mul (F32.of_Z 2) EPS_RAY)) isect0 in
  match mGeometry s with
  | None => Fault NullDereference
  | Some g => Done (fst (geomIntersectP g ray isect))
  end.

(** The ray and the distance bound [Occluded] hands to the any-hit test,
    component by component. *)
Definition shadow_ray (aPoint aDir : Vec3f) : Ray :=
  {| org := {| Vec3f.x := F32.add (Vec3f.x aPoint) (F32.mul (Vec3f.x aDir) EPS_RAY);
               Vec3f.y := F32.add (Vec3f.y aPoint) (F32.mul (Vec3f.y aDir) EPS_RAY);
               Vec3f.z := F32.add (Vec3f.z aPoint) (F32.mul (Vec3f.z aDir) EPS_RAY) |};
     dir := aDir;
     tmin := S754_zero false |}.

Definition shadow_bound (aTMax : float) : float :=
  F32.sub aTMax (F32.mul (F32.of_Z 2) EPS_RAY).

Definition GetMaterial (s : Scene) (aMaterialIdx : Z) : Outcome Material :=
  vector_at (mMaterials s) aMaterialIdx.

Definition GetMaterialCount (s : Scene) : Z :=
  to_int (Z.of_nat (length (mMaterials s))).

(** [std::min<int>(aLightIdx, mLights.size()-1)]: the subtraction is done
    in [size_t], its result converted to [int]. *)
Definition GetLightPtr (s : Scene) (aLightIdx : Z) : Outcome (option AbstractLight) :=
  let aLightIdx :=
    Z.min aLightIdx (to_int (to_size_t (Z.of_nat (length (mLights s)) - 1))) in
  vector_at (mLights s) aLightIdx.

Definition GetLightCount (s : Scene) : Z :=
  to_int (Z.of_nat (length (mLights s))).

Definition GetBackground (s : Scene) : option BackgroundLight :=
  mBackground s.

End SceneMethods.

(** ** Loading the Cornell box *)

Section LoadCornellBox.

Context {E : Externals}.

(** The eight corners [p[0..7]] of the box. *)
Definition corner (i : nat) : Vec3f :=
  let xl := F32.neg (F32.dec 127029 (-5)) in
  let xr := F32.dec 128975 (-5) in
  let yb := F32.dec 130455 (-5) in
  let yf := F32.neg (F32.dec 125549 (-5)) in
  let zd := F32.neg (F32.dec 128002 (-5)) in
  let zu := F32.dec 128002 (-5) in
  match i with
  | 0%nat => Vec3f.mk xl yb zd
  | 1%nat => Vec3f.mk xr yb zd
  | 2%nat => Vec3f.mk xr yb zu
  | 3%nat => Vec3f.mk xl yb zu
  | 4%nat => Vec3f.mk xl yf zd
  | 5%nat => Vec3f.mk xr yf zd
  | 6%nat => Vec3f.mk xr yf zu
  | _ => Vec3f.mk xl yf zu
  end.

(** The eight materials pushed on [mMaterials], in order. *)
Definition cornell_materials : list Material :=
  let mat := Material_new in
  let m0 := mat in
  let m1 := mat in
  let mat := Material_Reset mat in
  let mat := set_mDiffuseReflectance (Vec3f.splat (F32.dec 3 (-1))) mat in
  let mat := set_mPhongReflectance (Vec3f.splat (F32.dec 4 (-1))) mat in
  let mat := set_mGlossiness (F32.of_Z 10) mat in
  let m2 := mat in
  let mat := Material_Reset mat in
  let mat := set_mDiffuseReflectance
    (Vec3f.mk (F32.dec 156863 (-6)) (F32.dec 803922 (-6)) (F32.dec 172549 (-6))) mat in
  let m3 := mat in
  let mat := Material_Reset mat in
  let mat := set_mDiffuseReflectance
    (Vec3f.mk (F32.dec 803922 (-6)) (F32.dec 152941 (-6)) (F32.dec 152941 (-6))) mat in
  let m4 := mat in
  let mat := Material_Reset mat in
  let mat := set_mDiffuseReflectance
    (Vec3f.mk (F32.dec 803922 (-6)) (F32.dec 803922 (-6)) (F32.dec 803922 (-6))) mat in
  let m5 := mat in
  let mat := Material_Reset mat in
  let mat := set_mMirrorReflectance (Vec3f.splat (F32.of_Z 1)) mat in
  let m6 := mat in
  let mat := Material_Reset mat in
  let mat := set_mMirrorReflectance (Vec3f.splat (F32.of_Z 1)) mat in
  let mat := set_mIOR (F32.dec 16 (-1)) mat in
  let m7 := mat in
  [m0; m1; m2; m3; m4; m5; m6; m7].

Definition largeRadius : float := F32.dec 8 (-1).
Definition smallRadius : float := F32.dec 5 (-1).

(** [center], the centre of the large ball. *)
Definition largeBallCenter : Vec3f :=
  let p := corner in
  Vec3f.add
    (Vec3f.scale
       (Vec3f.add (Vec3f.add (Vec3f.add (p 0%nat) (p 1%nat)) (p 4%nat)) (p 5%nat))
       (F32.div (F32.of_Z 1) (F32.of_Z 4)))
    (Vec3f.mk (F32.of_Z 0) (F32.of_Z 0) largeRadius).

Definition leftWallCenter : Vec3f :=
  Vec3f.add
    (Vec3f.scale (Vec3f.add (corner 0) (corner 4)) (F32.div (F32.of_Z 1) (F32.of_Z 2)))
    (Vec3f.mk (F32.of_Z 0) (F32.of_Z 0) smallRadius).

Definition rightWallCenter : Vec3f :=
  Vec3f.add
    (Vec3f.scale (Vec3f.add (corner 1) (corner 5)) (F32.div (F32.of_Z 1) (F32.of_Z 2)))
    (Vec3f.mk (F32.of_Z 0) (F32.of_Z 0) smallRadius).

Definition xlen : float :=
  F32.sub (Vec3f.x rightWallCenter) (Vec3f.x leftWallCenter).

Definition ballShift : Vec3f :=
  Vec3f.mk (F32.div (F32.mul (F32.of_Z 2) xlen) (F32.of_Z 7)) (F32.of_Z 0) (F32.of_Z 0).

Definition leftBallCenter : Vec3f := Vec3f.add leftWallCenter ballShift.
Definition rightBallCenter : Vec3f := Vec3f.sub rightWallCenter ballShift.

(** The primitives pushed on [geometryList->mGeometry], in order, for the
    mask as it is after the conflict of the large balls is resolved. *)
Definition cornell_geometry (aBoxMask : Z) : list AbstractGeometry :=
  let p := corner in
  let light_ceiling := negb (Z.land aBoxMask LightCeiling =? 0) in
  [ Triangle (p 0%nat) (p 4%nat) (p 5%nat) 5;
    Triangle (p 5%nat) (p 1%nat) (p 0%nat) 5;
    Triangle (p 0%nat) (p 1%nat) (p 2%nat) 5;
    Triangle (p 2%nat) (p 3%nat) (p 0%nat) 5 ]
  ++ (if light_ceiling
      then [ Triangle (p 2%nat) (p 6%nat) (p 7%nat) 0;
             Triangle (p 7%nat) (p 3%nat) (p 2%nat) 1 ]
      else [ Triangle (p 2%nat) (p 6%nat) (p 7%nat) 5;
             Triangle (p 7%nat) (p 3%nat) (p 2%nat) 5 ])
  ++ [ Triangle (p 3%nat) (p 7%nat) (p 4%nat) 3;
       Triangle (p 4%nat) (p 0%nat) (p 3%nat) 3;
       Triangle (p 1%nat) (p 5%nat) (p 6%nat) 4;
       Triangle (p 6%nat) (p 2%nat) (p 1%nat) 4 ]
  ++ (if negb (Z.land aBoxMask BallLargeMirror =? 0)
      then [ Sphere largeBallCenter largeRadius 6 ] else [])
  ++ (if negb (Z.land aBoxMask BallLargeGlass =? 0)
      then [ Sphere largeBallCenter largeRadius 7 ] else [])
  ++ (if negb (Z.land aBoxMask BallMirror =? 0)
      then [ Sphere leftBallCenter smallRadius 6 ] else [])
  ++ (if negb (Z.land aBoxMask BallGlass =? 0)
      then [ Sphere rightBallCenter smallRadius 7 ] else []).

(** The block [if(light_ceiling) { ... }]: two area lights in the first two
    slots of [mLights], and their materials entered in the index. *)
Definition add_ceiling_lights (s : Scene) : Scene :=
  let p := corner in
  let intensity := Vec3f.splat (F32.dec 95492965 (-8)) in
  let lights := vector_resize 2 None (mLights s) in
  let lights := <[0%nat := Some (AreaLight (p 2%nat) (p 6%nat) (p 7%nat) intensity)]> lights in
  let index := map_insert 0 0 (mMaterial2Light s) in
  let lights := <[1%nat := Some (AreaLight (p 7%nat) (p 3%nat) (p 2%nat) intensity)]> lights in
  let index := map_insert 1 1 index in
  set_mMaterial2Light index (set_mLights lights s).

Definition add_sun (s : Scene) : Scene :=
  let l := DirectionalLight
    (Vec3f.mk (F32.neg (F32.of_Z 1)) (F32.of_Z 1) (F32.neg (F32.of_Z 1)))
    (Vec3f.scale (Vec3f.mk (F32.dec 5 (-1)) (F32.dec 2 (-1)) (F32.of_Z 0))
                 (F32.dec 15 (-1))) in
  set_mLights (mLights s ++ [Some l]) s.

Definition add_point_light (s : Scene) : Scene :=
  let l := PointLight
    (Vec3f.mk (F32.of_Z 0) (F32.neg (F32.dec 5 (-1))) (F32.of_Z 1))
    (Vec3f.splat (F32.mul (F32.of_Z 70) (F32.mul INV_PI_F (F32.dec 25 (-2))))) in
  set_mLights (mLights s ++ [Some l]) s.

Definition add_background (s : Scene) : Scene :=
  let l := mkBackgroundLight (F32.of_Z 1) in
  set_mBackground (Some l) (set_mLights (mLights s ++ [Some (Background l)]) s).

(** [LoadCornellBox]: the updated scene and the text written to the
    standard output. *)
Definition LoadCornellBox (aResolution : Vec2i) (aBoxMask : Z) (s : Scene)
  : Scene * string :=
  let '(aBoxMask, out) :=
    if Z.land aBoxMask BothLargeBalls =? BothLargeBalls
    then (Z.land aBoxMask (to_uint (Z.lnot BallLargeGlass)), both_balls_notice)
    else (aBoxMask, EmptyString) in
  let light_ceiling := negb (Z.land aBoxMask LightCeiling =? 0) in
  let light_sun := negb (Z.land aBoxMask LightSun =? 0) in
  let light_point := negb (Z.land aBoxMask LightPoint =? 0) in
  let light_background := negb (Z.land aBoxMask LightBackground =? 0) in
  let s := set_mCamera
    (Camera_Setup
       (Vec3f.mk (F32.neg (F32.dec 439815 (-7))) (F32.neg (F32.dec 412529 (-5)))
                 (F32.dec 222539 (-6)))
       (Vec3f.mk (F32.dec 688625 (-8)) (F32.dec 998505 (-6))
                 (F32.neg (F32.dec 542161 (-7))))
       (Vec3f.mk (F32.dec 373896 (-9)) (F32.dec 542148 (-7)) (F32.dec 998529 (-6)))
       (mkVec2f (F32.of_Z (x2i aResolution)) (F32.of_Z (y2i aResolution)))
       (F32.of_Z 45)) s in
  let s := set_mMaterials (mMaterials s ++ cornell_materials) s in
  let s := set_mGeometry (Some (GeometryList (cornell_geometry aBoxMask))) s in
  let s := if light_ceiling then add_ceiling_lights s else s in
  let s := if light_sun then add_sun s else s in
  let s := if light_point then add_point_light s else s in
  let s := if light_background then add_background s else s in
  (s, out).

End LoadCornellBox.

(** The invariant of the material-to-light index: every value is an index
    into [mLights]. *)
Definition light_index_valid (s : Scene) : Prop :=
  forall k v : Z,
    mMaterial2Light s !! k = Some v -> 0 <= v < Z.of_nat (length (mLights s)).

(** What [LoadCornellBox] keeps true of the index from one call to the
    next: it is empty, or it holds the two ceiling lights, which are then
    in [mLights]. *)
Definition ceiling_index (s : Scene) : Prop :=
  mMaterial2Light s = ∅ \/
  (mMaterial2Light s = <[1 := 1]> (<[0 := 0]> ∅) /\ (2 <= length (mLights s))%nat).

(** The lights added after the ceiling block only extend [mLights]: the
    relation between the scene before and after such a block. *)
Definition extends_lights (s s' : Scene) : Prop :=
  mMaterial2Light s' = mMaterial2Light s /\
  (length (mLights s) <= length (mLights s'))%nat.

(** The scenes built by loading the Cornell box, once or repeatedly, into
    a freshly constructed scene. *)
Inductive loaded {E : Externals} : Scene -> Prop :=
| loaded_new (sphere0 : SceneSphere) : loaded (Scene_new sphere0)
| loaded_again (aResolution : Vec2i) (aBoxMask : Z) (s : Scene) :
    loaded s -> loaded (LoadCornellBox aResolution aBoxMask s).1.

(** ** The scene sphere *)

Section BuildSceneSphere.

Context {E : Externals}.

(** [BuildSceneSphere], returning next to the updated scene the operands
    (dividend, divisor) of each floating-point division it evaluates. *)
Definition BuildSceneSphere_divs (s : Scene)
  : Outcome (Scene * list (float * float)) :=
  let bboxMin := Vec3f.splat (F32.dec 1 36) in
  let bboxMax := Vec3f.splat (F32.neg (F32.dec 1 36)) in
  match mGeometry s with
  | None => Fault NullDereference
  | Some g =>
      let '(bboxMin, bboxMax) := geomGrowBBox g bboxMin bboxMax in
      let radius2 := Vec3f.LenSqr (Vec3f.sub bboxMax bboxMin) in
      let center := Vec3f.scale (Vec3f.add bboxMax bboxMin) (F32.dec 5 (-1)) in
      let radius := F32.mul (F32.sqrt radius2) (F32.dec 5 (-1)) in
      let divisor := Sqr radius in
      let inv := F32.div (F32.of_Z 1) divisor in
      Done (set_mSceneSphere (mkSceneSphere center radius inv) s,
            [(F32.of_Z 1, divisor)])
  end.

Definition BuildSceneSphere (s : Scene) : Outcome Scene :=
  match BuildSceneSphere_divs s with
  | Done (s', _) => Done s'
  | Fault u => Fault u
  end.

End BuildSceneSphere.

(** ** A small implementation of the external interface

    The concrete examples below need geometry to query. [Sample] supplies
    the constants with the usual values and a deliberately crude geometry:
    every ray hits every triangle and no sphere, an aggregate visits its
    primitives in order, and bounding boxes are grown over the vertices
    of a triangle and the two extreme corners of a sphere. *)

Module Sample.

Definition fmin (a b : float) : float := if F32.ltb b a then b else a.
Definition fmax (a b : float) : float := if F32.ltb a b then b else a.

Definition grow_point (p : Vec3f) (b : Vec3f * Vec3f) : Vec3f * Vec3f :=
  (Vec3f.mk (fmin (Vec3f.x b.1) (Vec3f.x p)) (fmin (Vec3f.y b.1) (Vec3f.y p))
            (fmin (Vec3f.z b.1) (Vec3f.z p)),
   Vec3f.mk (fmax (Vec3f.x b.2) (Vec3f.x p)) (fmax (Vec3f.y b.2) (Vec3f.y p))
            (fmax (Vec3f.z b.2) (Vec3f.z p))).

Fixpoint GrowBBox (g : AbstractGeometry) (b : Vec3f * Vec3f) : Vec3f * Vec3f :=
  match g with
  | Triangle p0 p1 p2 _ => grow_point p2 (grow_point p1 (grow_point p0 b))
  | Sphere c r _ =>
      grow_point (Vec3f.add c (Vec3f.splat r))
                 (grow_point (Vec3f.sub c (Vec3f.splat r)) b)
  | GeometryList prims =>
      (fix each (l : list AbstractGeometry) (b : Vec3f * Vec3f) :=
         match l with
         | [] => b
         | g' :: l' => each l' (GrowBBox g' b)
         end) prims b
  end.

Fixpoint Intersect (g : AbstractGeometry) (r : Ray) (i : Isect) : bool * Isect :=
  match g with
  | Triangle _ _ _ m => (true, mkIsect (dist i) m (lightID i) (normal i))
  | Sphere _ _ _ => (false, i)
  | GeometryList prims =>
      (fix each (l : list AbstractGeometry) (any : bool) (i : Isect) :=
         match l with
         | [] => (any, i)
         | g' :: l' =>
             let '(hit, i') := Intersect g' r i in
             each l' (if hit then true else any) i'
         end) prims false i
  end.

Fixpoint IntersectP (g : AbstractGeometry) (r : Ray) (i : Isect) : bool * Isect :=
  match g with
  | Triangle _ _ _ _ => (true, i)
  | Sphere _ _ _ => (false, i)
  | GeometryList prims =>
      (fix each (l : list AbstractGeometry) (i : Isect) :=
         match l with
         | [] => (false, i)
         | g' :: l' =>
             let '(hit, i') := IntersectP g' r i in
             if hit then (true, i') else each l' i'
         end) prims i
  end.

Definition black : Material :=
  mkMaterial (Vec3f.splat F32.zero) (Vec3f.splat F32.zero) F32.one
             (Vec3f.splat F32.zero) (F32.neg F32.one).

#[local] Instance externals : Externals := {|
  EPS_RAY := F32.dec 1 (-3);
  INV_PI_F := F32.div F32.one (F32.dec 314159265358979 (-14));
  Material_new := black;
  Material_Reset := fun _ => black;
  geomIntersect := Intersect;
  geomIntersectP := IntersectP;
  geomGrowBBox := fun g lo hi => GrowBBox g (lo, hi)
|}.

Definition origin : Vec3f := Vec3f.splat F32.zero.
Definition up : Vec3f := Vec3f.mk F32.zero F32.zero F32.one.
Definition down : Vec3f := Vec3f.mk F32.zero F32.zero (F32.neg F32.one).

Definition sphere0 : SceneSphere := mkSceneSphere origin F32.zero F32.zero.
Definition isect0 : Isect := mkIsect (F32.dec 1 36) 0 7 origin.
Definition ray0 : Ray := mkRay (Vec3f.mk F32.zero F32.zero (F32.of_Z 5)) down F32.zero.

(** A freshly constructed scene, and the Cornell box with default options. *)
Definition fresh : Scene := Scene_new sphere0.
Definition cornell : Scene := (LoadCornellBox (mkVec2i 512 512) Default fresh).1.

(** A scene of one triangle, with the given material. *)
Definition one_triangle (m : Z) : Scene :=
  set_mGeometry
    (Some (GeometryList
       [Triangle (Vec3f.mk (F32.neg F32.one) (F32.neg F32.one) F32.zero)
                 (Vec3f.mk F32.one (F32.neg F32.one) F32.zero)
                 (Vec3f.mk F32.one F32.one F32.zero) m]))
    cornell.

(** A scene whose bounding box is the cube from (-1,-1,-1) to (1,1,1). *)
Definition unit_cube : Scene :=
  set_mGeometry
    (Some (GeometryList
       [Sphere origin F32.one 6]))
    fresh.

(** A scene whose geometry is a single point. *)
Definition point_scene : Scene :=
  set_mGeometry
    (Some (GeometryList [Triangle up up up 5]))
    fresh.

(** A scene whose aggregate owns no primitive. *)
Definition empty_list : Scene :=
  set_mGeometry (Some (GeometryList [])) fresh.

End Sample.

(** ** An aggregate that writes before it looks

    The closest-hit query takes the record by reference and may write it
    whether or not it finds a hit. [Eager] is [Sample] with a query that
    first clears the material id and the light id of the record to -1, as
    an implementation that initialises its output does, and then visits
    the primitives. *)

Module Eager.

Definition Intersect (g : AbstractGeometry) (r : Ray) (i : Isect) : bool * Isect :=
  Sample.Intersect g r (mkIsect (dist i) (-1) (-1) (normal i)).

#[local] Instance externals : Externals := {|
  EPS_RAY := @EPS_RAY Sample.externals;
  INV_PI_F := @INV_PI_F Sample.externals;
  Material_new := @Material_new Sample.externals;
  Material_Reset := @Material_Reset Sample.externals;
  geomIntersect := Intersect;
  geomIntersectP := Sample.IntersectP;
  geomGrowBBox := @geomGrowBBox Sample.externals
|}.

End Eager.

(** ** Notions used to state further properties *)

(** The mask [LoadCornellBox] goes on with after its first block: the
    caller's mask, without [BallLargeGlass] when both large balls were
    asked for. *)
Definition effective_mask (aBoxMask : Z) : Z :=
  if Z.land aBoxMask BothLargeBalls =? BothLargeBalls
  then Z.land aBoxMask (to_uint (Z.lnot BallLargeGlass))
  else aBoxMask.

(** The material id a primitive was constructed with. *)
Definition prim_matID (g : AbstractGeometry) : option Z :=
  match g with
  | Triangle _ _ _ m => Some m
  | Sphere _ _ m => Some m
  | GeometryList _ => None
  end.

(** A float that is not negative: its sign bit is clear, or it is NaN. *)
Definition not_negative (f : float) : bool :=
  match f with
  | S754_nan => true
  | S754_zero sg | S754_infinity sg | S754_finite sg _ _ => negb sg
  end.

(** What repeated loads keep true of the lights: when the index has
    entries, the first two slots of [mLights] hold area lights. *)
Definition ceiling_lights (s : Scene) : Prop :=
  mMaterial2Light s = ∅ \/
  (mMaterial2Light s = <[1 := 1]> (<[0 := 0]> ∅) /\
   exists a0 b0 c0 i0 a1 b1 c1 i1 rest,
     mLights s = Some (AreaLight a0 b0 c0 i0) :: Some (AreaLight a1 b1 c1 i1) :: rest).

(** The camera [LoadCornellBox] sets up, and the four light blocks it runs
    after the geometry is in place, by the flag of each block. *)
Definition cornell_camera (aResolution : Vec2i) : Camera :=
  Camera_Setup
    (Vec3f.mk (F32.neg (F32.dec 439815 (-7))) (F32.neg (F32.dec 412529 (-5)))
              (F32.dec 222539 (-6)))
    (Vec3f.mk (F32.dec 688625 (-8)) (F32.dec 998505 (-6))
              (F32.neg (F32.dec 542161 (-7))))
    (Vec3f.mk (F32.dec 373896 (-9)) (F32.dec 542148 (-7)) (F32.dec 998529 (-6)))
    (mkVec2f (F32.of_Z (x2i aResolution)) (F32.of_Z (y2i aResolution)))
    (F32.of_Z 45).

Definition light_blocks {E : Externals} (light_ceiling light_sun light_point
    light_background : bool) (s : Scene) : Scene :=
  let s := if light_ceiling then add_ceiling_lights s else s in
  let s := if light_sun then add_sun s else s in
  let s := if light_point then add_point_light s else s in
  if light_background then add_background s else s.

(** * Properties *)

(** ** Sanity checks of the arithmetic and of the samples *)

(** A few literals checked against their bit patterns:
    [0.1f = 0x3DCCCCCD], [1e36f = 0x7B4097CE], [0.5f = 0x3F000000]. *)
Example dec_tenth : F32.dec 1 (-1) = S754_finite false 13421773 (-27).
Proof. vm_compute. reflexivity. Qed.

Example dec_1e36 : F32.dec 1 36 = S754_finite false 12621774 96.
Proof. vm_compute. reflexivity. Qed.

Example dec_half : F32.half = S754_finite false 8388608 (-24).
Proof. vm_compute. reflexivity. Qed.

Example one_valid : F32.one = S754_finite false 8388608 (-23).
Proof. vm_compute. reflexivity. Qed.

Example sample_unit_cube_box :
  Sample.GrowBBox (GeometryList [Sphere Sample.origin F32.one 6])
    (Vec3f.splat (F32.dec 1 36), Vec3f.splat (F32.neg (F32.dec 1 36)))
  = (Vec3f.splat (F32.neg F32.one), Vec3f.splat F32.one).
Proof. vm_compute. reflexivity. Qed.

Example sample_cornell_lights :
  length (mLights Sample.cornell) = 2%nat /\
  mMaterial2Light Sample.cornell !! 1 = Some 1 /\
  mMaterial2Light Sample.cornell !! 5 = None.
Proof. vm_compute. auto. Qed.

Example sample_sphere :
  BuildSceneSphere (E := Sample.externals) Sample.unit_cube
  = Done (set_mSceneSphere
            (mkSceneSphere Sample.origin (F32.sqrt (F32.of_Z 3))
               (F32.div F32.one (Sqr (F32.sqrt (F32.of_Z 3)))))
            Sample.unit_cube).
Proof. vm_compute. reflexivity. Qed.

(** ** Conversions and vector accesses *)

Lemma to_int_small (n : Z) : in_int n -> to_int n = n.
Proof.
  unfold in_int, to_int. intros H.
  rewrite Z.mod_small; lia.
Qed.

Lemma to_size_t_small (n : Z) : 0 <= n < 2 ^ 64 -> to_size_t n = n.
Proof. unfold to_size_t. intros H. apply Z.mod_small. lia. Qed.

Lemma to_size_t_negative (n : Z) :
  - 2 ^ 31 <= n < 0 -> to_size_t n = n + 2 ^ 64.
Proof.
  unfold to_size_t. intros H.
  rewrite <- (Z.mod_add n 1 (2 ^ 64)) by lia.
  apply Z.mod_small. lia.
Qed.

Lemma vector_at_in_range {A : Type} (v : list A) (i : Z) :
  0 <= i < Z.of_nat (length v) -> i < 2 ^ 64 ->
  exists a, vector_at v i = Done a /\ v !! Z.to_nat i = Some a.
Proof.
  intros Hi Hlt. unfold vector_at.
  rewrite to_size_t_small by lia.
  destruct (lookup_lt_is_Some_2 v (Z.to_nat i)) as [a Ha]; [lia|].
  exists a. rewrite Ha. auto.
Qed.

Lemma vector_at_negative {A : Type} (v : list A) (i : Z) :
  - 2 ^ 31 <= i < 0 -> Z.of_nat (length v) < 2 ^ 31 ->
  vector_at v i = Fault IndexOutOfRange.
Proof.
  intros Hi Hlen. unfold vector_at.
  rewrite to_size_t_negative by assumption.
  rewrite lookup_ge_None_2; [reflexivity|].
  apply Nat2Z.inj_le. rewrite Z2Nat.id by lia. lia.
Qed.

(** ** Queries *)

Section Queries.

Context {E : Externals}.

Lemma Intersect_with_geometry (s : Scene) (g : AbstractGeometry) (aRay : Ray) (r : Isect) :
  mGeometry s = Some g ->
  Intersect s aRay r =
    Done (let '(hit, r') := geomIntersect g aRay r in
          if hit
          then (true, set_lightID (default (-1) (mMaterial2Light s !! matID r')) r')
          else (false, r')).
Proof.
  intros Hg. unfold Intersect. rewrite Hg.
  destruct (geomIntersect g aRay r) as [[|] r']; [|reflexivity].
  simpl. destruct (mMaterial2Light s !! matID r'); reflexivity.
Qed.

Lemma Intersect_done_geometry (s : Scene) (aRay : Ray) (r : Isect) (res : bool * Isect) :
  Intersect s aRay r = Done res -> exists g, mGeometry s = Some g.
Proof.
  unfold Intersect. destruct (mGeometry s) as [g|]; [eauto|discriminate].
Qed.

(** C1 (as the code has it): a scene that holds no geometry aggregate does
    not answer. [Intersect] and [Occluded] dereference the null pointer
    without a test, for every ray and every occlusion query. A scene that
    holds an aggregate reports no hit exactly when the aggregate's
    closest-hit query does, and not occluded exactly when its any-hit test
    returns false. *)
Theorem queries_need_geometry (s : Scene) (aRay : Ray) (r : Isect)
    (isect0 : Isect) (aPoint aDir : Vec3f) (aTMax : float) :
  (mGeometry s = None ->
     Intersect s aRay r = Fault NullDereference /\
     Occluded s isect0 aPoint aDir aTMax = Fault NullDereference) /\
  (forall g, mGeometry s = Some g ->
     (forall r', Intersect s aRay r = Done (false, r') <->
                 geomIntersect g aRay r = (false, r')) /\
     (Occluded s isect0 aPoint aDir aTMax = Done false <->
      fst (geomIntersectP g (shadow_ray aPoint aDir)
             (set_dist (shadow_bound aTMax) isect0)) = false)).
Proof.
  split.
  - intros Hg. unfold Intersect, Occluded. rewrite Hg. auto.
  - intros g Hg. split.
    + intros r'. rewrite (Intersect_with_geometry s g) by assumption.
      destruct (geomIntersect g aRay r) as [[|] r1]; split; intros H;
        try discriminate; congruence.
    + unfold Occluded. rewrite Hg. split; intros H.
      * injection H as H. exact H.
      * f_equal. exact H.
Qed.

(** C2: whenever [Intersect] reports a hit, the light id of the result is
    the value the material id of the hit has in the material-to-light
    index, and -1 when that material id is not a key of the index. *)
Theorem Intersect_hit_lightID (s : Scene) (aRay : Ray) (r r' : Isect) :
  Intersect s aRay r = Done (true, r') ->
  (forall l, mMaterial2Light s !! matID r' = Some l -> lightID r' = l) /\
  (mMaterial2Light s !! matID r' = None -> lightID r' = -1).
Proof.
  intros H.
  destruct (Intersect_done_geometry _ _ _ _ H) as [g Hg].
  rewrite (Intersect_with_geometry s g) in H by assumption.
  destruct (geomIntersect g aRay r) as [[|] r1]; [|discriminate].
  injection H as <-. simpl.
  split.
  - intros l Hl. rewrite Hl. reflexivity.
  - intros Hn. rewrite Hn. reflexivity.
Qed.

(** C3: [Occluded] runs the aggregate's any-hit test on the ray that
    starts at the point moved by [EPS_RAY] along the direction, keeps the
    direction and has [tmin = 0], with the distance bound
    [aTMax - 2 * EPS_RAY], and returns the boolean of that test. *)
Theorem Occluded_any_hit (s : Scene) (g : AbstractGeometry) (isect0 : Isect)
    (aPoint aDir : Vec3f) (aTMax : float) :
  mGeometry s = Some g ->
  exists (ray : Ray) (isect : Isect),
    Vec3f.x (org ray) = F32.add (Vec3f.x aPoint) (F32.mul (Vec3f.x aDir) EPS_RAY) /\
    Vec3f.y (org ray) = F32.add (Vec3f.y aPoint) (F32.mul (Vec3f.y aDir) EPS_RAY) /\
    Vec3f.z (org ray) = F32.add (Vec3f.z aPoint) (F32.mul (Vec3f.z aDir) EPS_RAY) /\
    dir ray = aDir /\
    tmin ray = S754_zero false /\
    dist isect = F32.sub aTMax (F32.mul (F32.of_Z 2) EPS_RAY) /\
    Occluded s isect0 aPoint aDir aTMax = Done (fst (geomIntersectP g ray isect)).
Proof.
  intros Hg.
  exists (shadow_ray aPoint aDir), (set_dist (shadow_bound aTMax) isect0).
  unfold Occluded. rewrite Hg. repeat split.
Qed.


(** C4 (as the code has it): the index is clamped from above only. For a
    non-empty light collection and an index that is not negative,
    [GetLightPtr] returns the element at [min(index, count - 1)]; the
    indices [count] and [count + 5] give the element at [count - 1]. *)
Theorem GetLightPtr_clamps_above (s : Scene) (aLightIdx : Z) :
  0 < Z.of_nat (length (mLights s)) ->
  Z.of_nat (length (mLights s)) + 5 < 2 ^ 31 ->
  0 <= aLightIdx < 2 ^ 31 ->
  (exists l,
     GetLightPtr s aLightIdx = Done l /\
     mLights s !! Z.to_nat (Z.min aLightIdx (Z.of_nat (length (mLights s)) - 1))
       = Some l) /\
  GetLightPtr s (Z.of_nat (length (mLights s)))
    = GetLightPtr s (Z.of_nat (length (mLights s)) - 1) /\
  GetLightPtr s (Z.of_nat (length (mLights s)) + 5)
    = GetLightPtr s (Z.of_nat (length (mLights s)) - 1).
Proof.
  intros Hpos Hmax Hidx.
  set (count := Z.of_nat (length (mLights s))) in *.
  assert (Hlast : to_int (to_size_t (count - 1)) = count - 1).
  { rewrite to_size_t_small by lia. apply to_int_small. unfold in_int. lia. }
  unfold GetLightPtr. fold count. rewrite Hlast.
  split; [|split].
  - destruct (vector_at_in_range (mLights s) (Z.min aLightIdx (count - 1)))
      as [l [H1 H2]]; [fold count; lia | lia |].
    exists l. auto.
  - f_equal. lia.
  - f_equal. lia.
Qed.

(** Below the range there is no clamp: a negative index is used as it is. *)
Lemma GetLightPtr_negative (s : Scene) (aLightIdx : Z) :
  Z.of_nat (length (mLights s)) < 2 ^ 31 ->
  - 2 ^ 31 <= aLightIdx < 0 ->
  GetLightPtr s aLightIdx = Fault IndexOutOfRange.
Proof.
  intros Hlen Hidx. unfold GetLightPtr.
  apply vector_at_negative; [|assumption].
  assert (H := Z.le_min_l aLightIdx
    (to_int (to_size_t (Z.of_nat (length (mLights s)) - 1)))).
  assert (- 2 ^ 31 <= to_int (to_size_t (Z.of_nat (length (mLights s)) - 1))).
  { unfold to_int.
    assert (H2 := Z.mod_pos_bound
      (to_size_t (Z.of_nat (length (mLights s)) - 1) + 2 ^ 31) (2 ^ 32)).
    lia. }
  lia.
Qed.

End Queries.

(** ** Bits of the box mask *)

Lemma land_pow2 (a n : Z) :
  0 <= n -> Z.land a (2 ^ n) = if Z.testbit a n then 2 ^ n else 0.
Proof.
  intros Hn. apply Z.bits_inj'. intros m Hm.
  rewrite Z.land_spec, Z.pow2_bits_eqb by assumption.
  destruct (Z.eqb_spec n m) as [->|Hne].
  - destruct (Z.testbit a m); simpl.
    + rewrite Z.pow2_bits_true by assumption. reflexivity.
    + rewrite Z.bits_0. reflexivity.
  - rewrite andb_false_r.
    destruct (Z.testbit a n).
    + rewrite Z.pow2_bits_false by assumption. reflexivity.
    + rewrite Z.bits_0. reflexivity.
Qed.




(** ** Loading the Cornell box *)

Section Loading.

Context {E : Externals}.

Lemma vector_resize_length {A : Type} (n : nat) (d : A) (v : list A) :
  length (vector_resize n d v) = n.
Proof.
  unfold vector_resize.
  rewrite length_app, length_take, length_replicate. lia.
Qed.

Lemma add_ceiling_lights_length (s : Scene) :
  length (mLights (add_ceiling_lights s)) = 2%nat.
Proof.
  lazy beta iota zeta delta
    [add_ceiling_lights set_mMaterial2Light set_mLights mLights].
  rewrite !length_insert. apply vector_resize_length.
Qed.

Lemma add_ceiling_lights_index (s : Scene) :
  mMaterial2Light (add_ceiling_lights s)
  = map_insert 1 1 (map_insert 0 0 (mMaterial2Light s)).
Proof. reflexivity. Qed.

Lemma map_insert_ceiling (m : gmap Z Z) :
  m = ∅ \/ m = <[1 := 1]> (<[0 := 0]> ∅) ->
  map_insert 1 1 (map_insert 0 0 m) = <[1 := 1]> (<[0 := 0]> ∅).
Proof.
  intros [-> | ->]; unfold map_insert.
  - rewrite lookup_empty.
    rewrite lookup_insert_ne by discriminate.
    rewrite lookup_empty. reflexivity.
  - rewrite lookup_insert_ne by discriminate.
    rewrite lookup_insert_eq.
    rewrite lookup_insert_eq. reflexivity.
Qed.

Lemma ceiling_index_valid (s : Scene) : ceiling_index s -> light_index_valid s.
Proof.
  intros [H | [H Hlen]] k v Hk; rewrite H in Hk.
  - rewrite lookup_empty in Hk. discriminate.
  - destruct (decide (k = 1)) as [-> | H1].
    + rewrite lookup_insert_eq in Hk. injection Hk as <-. lia.
    + rewrite lookup_insert_ne in Hk by congruence.
      destruct (decide (k = 0)) as [-> | H0].
      * rewrite lookup_insert_eq in Hk. injection Hk as <-. lia.
      * rewrite lookup_insert_ne, lookup_empty in Hk by congruence. discriminate.
Qed.

Lemma extends_lights_ceiling (s s' : Scene) :
  extends_lights s s' -> ceiling_index s -> ceiling_index s'.
Proof.
  intros [Hm Hl] [H | [H Hlen]]; [left | right]; rewrite Hm; [assumption|].
  split; [assumption | lia].
Qed.

Lemma extends_lights_refl (s : Scene) : extends_lights s s.
Proof. split; [reflexivity | lia]. Qed.

Lemma extends_lights_trans (s1 s2 s3 : Scene) :
  extends_lights s1 s2 -> extends_lights s2 s3 -> extends_lights s1 s3.
Proof. intros [H1 L1] [H2 L2]. split; [congruence | lia]. Qed.

Lemma extends_lights_sun (s : Scene) : extends_lights s (add_sun s).
Proof. split; [reflexivity|]. simpl. rewrite length_app. lia. Qed.

Lemma extends_lights_point (s : Scene) : extends_lights s (add_point_light s).
Proof. split; [reflexivity|]. simpl. rewrite length_app. lia. Qed.

Lemma extends_lights_background (s : Scene) : extends_lights s (add_background s).
Proof. split; [reflexivity|]. simpl. rewrite length_app. lia. Qed.

Lemma extends_lights_if (b : bool) (f : Scene -> Scene) (s : Scene) :
  extends_lights s (f s) -> extends_lights s (if b then f s else s).
Proof. destruct b; [auto | intros _; apply extends_lights_refl]. Qed.

Lemma ceiling_block_index (b : bool) (s : Scene) :
  ceiling_index s -> ceiling_index (if b then add_ceiling_lights s else s).
Proof.
  intros H. destruct b; [|assumption].
  right. rewrite add_ceiling_lights_index, add_ceiling_lights_length.
  split; [|lia]. apply map_insert_ceiling.
  destruct H as [H | [H _]]; auto.
Qed.

Lemma LoadCornellBox_ceiling_index (aResolution : Vec2i) (aBoxMask : Z) (s : Scene) :
  ceiling_index s -> ceiling_index (LoadCornellBox aResolution aBoxMask s).1.
Proof.
  intros H. unfold LoadCornellBox.
  destruct (Z.land aBoxMask BothLargeBalls =? BothLargeBalls);
    lazy beta iota zeta delta [fst].
  all: match goal with
       | |- ceiling_index
              (if ?b4 then add_background ?s4 else ?s4) =>
           eapply extends_lights_ceiling;
             [apply extends_lights_if, extends_lights_background|]
       end.
  all: match goal with
       | |- ceiling_index (if ?b3 then add_point_light ?s3 else ?s3) =>
           eapply extends_lights_ceiling;
             [apply extends_lights_if, extends_lights_point|]
       end.
  all: match goal with
       | |- ceiling_index (if ?b2 then add_sun ?s2 else ?s2) =>
           eapply extends_lights_ceiling;
             [apply extends_lights_if, extends_lights_sun|]
       end.
  all: apply ceiling_block_index; exact H.
Qed.

Lemma loaded_ceiling_index (s : Scene) : loaded s -> ceiling_index s.
Proof.
  induction 1 as [sphere0 | res mask s Hs IH].
  - left. reflexivity.
  - apply LoadCornellBox_ceiling_index. exact IH.
Qed.

(** C8: after [LoadCornellBox], called with any mask on a freshly
    constructed scene, every value of the material-to-light index is an
    index into the light collection, and the keys of the index are
    pairwise distinct. *)
Theorem LoadCornellBox_light_index (sphere0 : SceneSphere) (aResolution : Vec2i)
    (aBoxMask : Z) :
  light_index_valid (LoadCornellBox aResolution aBoxMask (Scene_new sphere0)).1 /\
  NoDup (map_to_list
           (mMaterial2Light
              (LoadCornellBox aResolution aBoxMask (Scene_new sphere0)).1)).*1.
Proof.
  split.
  - apply ceiling_index_valid, LoadCornellBox_ceiling_index.
    left. reflexivity.
  - apply NoDup_fst_map_to_list.
Qed.

(** The same holds however many times the box is loaded. *)
Lemma loaded_light_index (s : Scene) : loaded s -> light_index_valid s.
Proof. intros H. apply ceiling_index_valid, loaded_ceiling_index, H. Qed.

End Loading.

Section LargeBalls.

Context {E : Externals}.

Lemma LoadCornellBox_geometry (aResolution : Vec2i) (aBoxMask : Z) (s : Scene) :
  mGeometry (LoadCornellBox aResolution aBoxMask s).1
  = Some (GeometryList
      (cornell_geometry
         (if Z.land aBoxMask BothLargeBalls =? BothLargeBalls
          then Z.land aBoxMask (to_uint (Z.lnot BallLargeGlass))
          else aBoxMask))).
Proof.
  unfold LoadCornellBox.
  destruct (Z.land aBoxMask BothLargeBalls =? BothLargeBalls);
    lazy beta iota zeta delta [fst].
  all: repeat match goal with
       | |- context [if ?b then _ else _] =>
           match b with
           | negb (Z.land _ LightCeiling =? 0) => destruct b
           | negb (Z.land _ LightSun =? 0) => destruct b
           | negb (Z.land _ LightPoint =? 0) => destruct b
           | negb (Z.land _ LightBackground =? 0) => destruct b
           end
       end.
  all: reflexivity.
Qed.

Lemma radii_differ : smallRadius <> largeRadius.
Proof. vm_compute. discriminate. Qed.


End LargeBalls.

(** ** The scene sphere *)

Section Sphere.

Context {E : Externals}.

Lemma BuildSceneSphere_divs_geometry (s : Scene) (g : AbstractGeometry)
    (bboxMin bboxMax : Vec3f) :
  mGeometry s = Some g ->
  geomGrowBBox g (Vec3f.splat (F32.dec 1 36)) (Vec3f.splat (F32.neg (F32.dec 1 36)))
    = (bboxMin, bboxMax) ->
  BuildSceneSphere_divs s =
    Done (set_mSceneSphere
            (mkSceneSphere
               (Vec3f.scale (Vec3f.add bboxMax bboxMin) (F32.dec 5 (-1)))
               (F32.mul (F32.sqrt (Vec3f.LenSqr (Vec3f.sub bboxMax bboxMin)))
                        (F32.dec 5 (-1)))
               (F32.div (F32.of_Z 1)
                  (Sqr (F32.mul (F32.sqrt (Vec3f.LenSqr (Vec3f.sub bboxMax bboxMin)))
                                (F32.dec 5 (-1)))))) s,
          [(F32.of_Z 1,
            Sqr (F32.mul (F32.sqrt (Vec3f.LenSqr (Vec3f.sub bboxMax bboxMin)))
                         (F32.dec 5 (-1))))]).
Proof.
  intros Hg Hbox. unfold BuildSceneSphere_divs. rewrite Hg, Hbox. reflexivity.
Qed.

(** C5: [BuildSceneSphere] takes the bounding box of the geometry from
    [GrowBBox] and stores, in binary32 arithmetic, the midpoint of the box
    as the centre, half the length of its diagonal as the radius and 1
    over the square of the radius. For the box from (-1,-1,-1) to (1,1,1)
    the centre is (0,0,0) and the radius is the square root of 3, rounded:
    the float [14529495 * 2^-23], within half a unit in the last place of
    the real square root. *)
Theorem BuildSceneSphere_sphere (s : Scene) (g : AbstractGeometry)
    (bboxMin bboxMax : Vec3f) :
  mGeometry s = Some g ->
  geomGrowBBox g (Vec3f.splat (F32.dec 1 36)) (Vec3f.splat (F32.neg (F32.dec 1 36)))
    = (bboxMin, bboxMax) ->
  exists s',
    BuildSceneSphere s = Done s' /\
    Vec3f.x (mSceneCenter (mSceneSphere s'))
      = F32.mul (F32.add (Vec3f.x bboxMax) (Vec3f.x bboxMin)) F32.half /\
    Vec3f.y (mSceneCenter (mSceneSphere s'))
      = F32.mul (F32.add (Vec3f.y bboxMax) (Vec3f.y bboxMin)) F32.half /\
    Vec3f.z (mSceneCenter (mSceneSphere s'))
      = F32.mul (F32.add (Vec3f.z bboxMax) (Vec3f.z bboxMin)) F32.half /\
    mSceneRadius (mSceneSphere s')
      = F32.mul
          (F32.sqrt
             (F32.add
                (F32.add
                   (Sqr (F32.sub (Vec3f.x bboxMax) (Vec3f.x bboxMin)))
                   (Sqr (F32.sub (Vec3f.y bboxMax) (Vec3f.y bboxMin))))
                (Sqr (F32.sub (Vec3f.z bboxMax) (Vec3f.z bboxMin)))))
          F32.half /\
    mInvSceneRadiusSqr (mSceneSphere s')
      = F32.div F32.one
          (F32.mul (mSceneRadius (mSceneSphere s')) (mSceneRadius (mSceneSphere s'))) /\
    (bboxMin = Vec3f.splat (F32.neg F32.one) ->
     bboxMax = Vec3f.splat F32.one ->
     mSceneCenter (mSceneSphere s') = Vec3f.splat (S754_zero false) /\
     mSceneRadius (mSceneSphere s') = F32.sqrt (F32.of_Z 3) /\
     mSceneRadius (mSceneSphere s') = S754_finite false 14529495 (-23) /\
     (2 * 14529495 - 1) ^ 2 < 3 * (2 ^ 24) ^ 2 < (2 * 14529495 + 1) ^ 2).
Proof.
  intros Hg Hbox.
  eexists. split.
  - unfold BuildSceneSphere.
    rewrite (BuildSceneSphere_divs_geometry s g bboxMin bboxMax Hg Hbox).
    reflexivity.
  - repeat (split; [reflexivity|]).
    intros -> ->.
    split; [vm_compute; reflexivity|].
    split; [vm_compute; reflexivity|].
    split; [vm_compute; reflexivity|].
    split; reflexivity.
Qed.

(** C6 (as the code has it): [BuildSceneSphere] evaluates exactly one
    division, [1.f / Sqr(mSceneRadius)], whatever the radius. When the
    radius is zero the divisor is zero and the field receives the IEEE
    quotient of 1 by 0, plus infinity. *)
Theorem BuildSceneSphere_divides_unguarded (s : Scene) (g : AbstractGeometry) :
  mGeometry s = Some g ->
  exists s',
    BuildSceneSphere_divs s
      = Done (s', [(F32.one, Sqr (mSceneRadius (mSceneSphere s')))]) /\
    BuildSceneSphere s = Done s' /\
    (F32.is_zero (mSceneRadius (mSceneSphere s')) = true ->
     Sqr (mSceneRadius (mSceneSphere s')) = S754_zero false /\
     mInvSceneRadiusSqr (mSceneSphere s') = S754_infinity false).
Proof.
  intros Hg.
  destruct (geomGrowBBox g (Vec3f.splat (F32.dec 1 36))
              (Vec3f.splat (F32.neg (F32.dec 1 36)))) as [lo hi] eqn:Hbox.
  assert (H := BuildSceneSphere_divs_geometry s g lo hi Hg Hbox).
  unfold BuildSceneSphere. rewrite H. clear H.
  generalize (F32.mul (F32.sqrt (Vec3f.LenSqr (Vec3f.sub hi lo))) (F32.dec 5 (-1))).
  generalize (Vec3f.scale (Vec3f.add hi lo) (F32.dec 5 (-1))).
  intros c r.
  exists (set_mSceneSphere (mkSceneSphere c r (F32.div (F32.of_Z 1) (Sqr r))) s).
  split; [reflexivity|]. split; [reflexivity|].
  cbn [mSceneSphere set_mSceneSphere mSceneRadius mInvSceneRadiusSqr].
  intros Hr. destruct r as [sg | | | ]; try discriminate.
  destruct sg; split; reflexivity.
Qed.

(** C7: [BuildSceneSphere] called again on the scene it returned, the
    geometry being the same, returns that scene again: centre, radius and
    inverse squared radius are the same floats. *)
Theorem BuildSceneSphere_idempotent (s : Scene) (g : AbstractGeometry) :
  mGeometry s = Some g ->
  exists s1 s2,
    BuildSceneSphere s = Done s1 /\
    BuildSceneSphere s1 = Done s2 /\
    mSceneCenter (mSceneSphere s2) = mSceneCenter (mSceneSphere s1) /\
    mSceneRadius (mSceneSphere s2) = mSceneRadius (mSceneSphere s1) /\
    s2 = s1.
Proof.
  intros Hg.
  destruct (geomGrowBBox g (Vec3f.splat (F32.dec 1 36))
              (Vec3f.splat (F32.neg (F32.dec 1 36)))) as [lo hi] eqn:Hbox.
  assert (H1 := BuildSceneSphere_divs_geometry s g lo hi Hg Hbox).
  set (s1 := set_mSceneSphere _ s) in H1.
  assert (Hg1 : mGeometry s1 = Some g) by exact Hg.
  assert (H2 := BuildSceneSphere_divs_geometry s1 g lo hi Hg1 Hbox).
  exists s1, s1. unfold BuildSceneSphere. rewrite H1, H2.
  repeat split; reflexivity.
Qed.

End Sphere.

(** ** Where the code departs from the stated behaviour *)

(** C1, at a freshly constructed scene: neither query answers. *)
Lemma fresh_scene_queries_fault :
  mGeometry Sample.fresh = None /\
  Intersect (E := Sample.externals) Sample.fresh Sample.ray0 Sample.isect0
    = Fault NullDereference /\
  Occluded (E := Sample.externals) Sample.fresh Sample.isect0
      Sample.origin Sample.up F32.one
    = Fault NullDereference /\
  (forall r', Intersect (E := Sample.externals) Sample.fresh Sample.ray0 Sample.isect0
              <> Done (false, r')) /\
  Occluded (E := Sample.externals) Sample.fresh Sample.isect0
      Sample.origin Sample.up F32.one
    <> Done false.
Proof.
  split; [reflexivity|]. split; [reflexivity|]. split; [reflexivity|].
  split; [intros r'|]; discriminate.
Qed.

(** C4, at the index -1 on the two lights of the Cornell box: the index is
    not brought back to 0, the access is out of range. *)
Lemma GetLightPtr_below_range :
  length (mLights Sample.cornell) = 2%nat /\
  GetLightPtr Sample.cornell (-1) = Fault IndexOutOfRange /\
  forall l, GetLightPtr Sample.cornell (-1) <> Done l.
Proof.
  assert (Hlen : length (mLights Sample.cornell) = 2%nat)
    by (vm_compute; reflexivity).
  assert (H : GetLightPtr Sample.cornell (-1) = Fault IndexOutOfRange).
  { apply GetLightPtr_negative; [rewrite Hlen|]; lia. }
  split; [exact Hlen|]. split; [exact H|].
  intros l. rewrite H. discriminate.
Qed.

(** C6, at a scene whose geometry is a single point: the radius is zero,
    the division is evaluated with the divisor zero, and the field holds
    plus infinity. *)
Lemma BuildSceneSphere_point_divides_by_zero :
  exists (s' : Scene) (divisor : float),
    BuildSceneSphere_divs (E := Sample.externals) Sample.point_scene
      = Done (s', [(F32.one, divisor)]) /\
    F32.is_zero (mSceneRadius (mSceneSphere s')) = true /\
    F32.is_zero divisor = true /\
    mInvSceneRadiusSqr (mSceneSphere s') = S754_infinity false.
Proof.
  exists (set_mSceneSphere
            (mkSceneSphere Sample.up (S754_zero false) (S754_infinity false))
            Sample.point_scene), (S754_zero false).
  split; [vm_compute; reflexivity|]. repeat split.
Qed.


(** ** The theorems at concrete scenes *)

Lemma queries_need_geometry_witness :
  Intersect (E := Sample.externals) Sample.fresh Sample.ray0 Sample.isect0
    = Fault NullDereference /\
  Occluded (E := Sample.externals) Sample.fresh Sample.isect0
      Sample.origin Sample.up F32.one
    = Fault NullDereference.
Proof.
  apply (queries_need_geometry (E := Sample.externals) Sample.fresh Sample.ray0
           Sample.isect0 Sample.isect0 Sample.origin Sample.up F32.one).
  reflexivity.
Defined.

Lemma Intersect_hit_lightID_witness :
  Intersect (E := Sample.externals) (Sample.one_triangle 0) Sample.ray0 Sample.isect0
    = Done (true, set_lightID 0 Sample.isect0) /\
  (forall l, mMaterial2Light (Sample.one_triangle 0)
               !! matID (set_lightID 0 Sample.isect0) = Some l ->
             lightID (set_lightID 0 Sample.isect0) = l) /\
  (mMaterial2Light (Sample.one_triangle 0)
     !! matID (set_lightID 0 Sample.isect0) = None ->
   lightID (set_lightID 0 Sample.isect0) = -1).
Proof.
  split.
  - vm_compute. reflexivity.
  - apply (Intersect_hit_lightID (E := Sample.externals) (Sample.one_triangle 0)
             Sample.ray0 Sample.isect0).
    vm_compute. reflexivity.
Defined.

Lemma Occluded_any_hit_witness :
  mGeometry Sample.empty_list = Some (GeometryList []) /\
  exists (ray : Ray) (isect : Isect),
    Vec3f.x (org ray) = F32.add F32.zero (F32.mul F32.zero (F32.dec 1 (-3))) /\
    Vec3f.y (org ray) = F32.add F32.zero (F32.mul F32.zero (F32.dec 1 (-3))) /\
    Vec3f.z (org ray) = F32.add F32.zero (F32.mul F32.one (F32.dec 1 (-3))) /\
    dir ray = Sample.up /\
    tmin ray = S754_zero false /\
    dist isect = F32.sub F32.one (F32.mul (F32.of_Z 2) (F32.dec 1 (-3))) /\
    Occluded (E := Sample.externals) Sample.empty_list Sample.isect0
        Sample.origin Sample.up F32.one
      = Done (fst (Sample.IntersectP (GeometryList []) ray isect)).
Proof.
  split.
  - reflexivity.
  - apply (Occluded_any_hit (E := Sample.externals) Sample.empty_list
             (GeometryList []) Sample.isect0 Sample.origin Sample.up F32.one).
    reflexivity.
Defined.


Lemma GetLightPtr_clamps_above_witness :
  0 < Z.of_nat (length (mLights Sample.cornell)) /\
  GetLightPtr Sample.cornell (Z.of_nat (length (mLights Sample.cornell)) + 5)
    = GetLightPtr Sample.cornell (Z.of_nat (length (mLights Sample.cornell)) - 1).
Proof.
  split.
  - vm_compute. reflexivity.
  - apply (GetLightPtr_clamps_above Sample.cornell 7).
    + vm_compute. reflexivity.
    + vm_compute. reflexivity.
    + lia.
Defined.

Lemma BuildSceneSphere_sphere_witness :
  mGeometry Sample.unit_cube = Some (GeometryList [Sphere Sample.origin F32.one 6]) /\
  exists s',
    BuildSceneSphere (E := Sample.externals) Sample.unit_cube = Done s' /\
    mSceneCenter (mSceneSphere s') = Vec3f.splat (S754_zero false) /\
    mSceneRadius (mSceneSphere s') = F32.sqrt (F32.of_Z 3).
Proof.
  split; [reflexivity|].
  destruct (BuildSceneSphere_sphere (E := Sample.externals) Sample.unit_cube
              (GeometryList [Sphere Sample.origin F32.one 6])
              (Vec3f.splat (F32.neg F32.one)) (Vec3f.splat F32.one))
    as [s' [H1 [_ [_ [_ [_ [_ H2]]]]]]].
  - reflexivity.
  - vm_compute. reflexivity.
  - exists s'. split; [exact H1|].
    destruct (H2 eq_refl eq_refl) as [Hc [Hr _]]. split; assumption.
Defined.

Lemma BuildSceneSphere_divides_unguarded_witness :
  mGeometry Sample.point_scene = Some (GeometryList [Triangle Sample.up Sample.up Sample.up 5]) /\
  exists s',
    BuildSceneSphere_divs (E := Sample.externals) Sample.point_scene
      = Done (s', [(F32.one, Sqr (mSceneRadius (mSceneSphere s')))]) /\
    BuildSceneSphere (E := Sample.externals) Sample.point_scene = Done s' /\
    (F32.is_zero (mSceneRadius (mSceneSphere s')) = true ->
     Sqr (mSceneRadius (mSceneSphere s')) = S754_zero false /\
     mInvSceneRadiusSqr (mSceneSphere s') = S754_infinity false).
Proof.
  split; [reflexivity|].
  apply (BuildSceneSphere_divides_unguarded (E := Sample.externals)
           Sample.point_scene (GeometryList [Triangle Sample.up Sample.up Sample.up 5])).
  reflexivity.
Defined.

Lemma BuildSceneSphere_idempotent_witness :
  mGeometry Sample.unit_cube = Some (GeometryList [Sphere Sample.origin F32.one 6]) /\
  exists s1 s2,
    BuildSceneSphere (E := Sample.externals) Sample.unit_cube = Done s1 /\
    BuildSceneSphere (E := Sample.externals) s1 = Done s2 /\
    mSceneCenter (mSceneSphere s2) = mSceneCenter (mSceneSphere s1) /\
    mSceneRadius (mSceneSphere s2) = mSceneRadius (mSceneSphere s1) /\
    s2 = s1.
Proof.
  split; [reflexivity|].
  apply (BuildSceneSphere_idempotent (E := Sample.externals) Sample.unit_cube
           (GeometryList [Sphere Sample.origin F32.one 6])).
  reflexivity.
Defined.


(** * Further properties of the code *)

(** ** Accessors *)

Section Accessors.

Context {E : Externals}.

(** X1: with no light in the collection [GetLightPtr] has nothing to
    clamp to: [size() - 1] converts to -1, the index becomes
    [min(index, -1)], and the access is out of range for every index. *)
Theorem GetLightPtr_empty (s : Scene) (aLightIdx : Z) :
  mLights s = [] ->
  to_int (to_size_t (Z.of_nat (length (mLights s)) - 1)) = -1 /\
  GetLightPtr s aLightIdx = Fault IndexOutOfRange.
Proof.
  intros Hnil. unfold GetLightPtr. rewrite Hnil. split.
  - reflexivity.
  - unfold vector_at. rewrite lookup_nil. reflexivity.
Qed.

(** X2: [GetMaterial] indexes without any clamp. An index inside the
    table returns the material stored there; an index below 0, or at or
    above the count, is out of range. *)
Theorem GetMaterial_unchecked (s : Scene) (aMaterialIdx : Z) :
  in_int aMaterialIdx ->
  Z.of_nat (length (mMaterials s)) < 2 ^ 31 ->
  (0 <= aMaterialIdx < Z.of_nat (length (mMaterials s)) ->
   exists m, GetMaterial s aMaterialIdx = Done m /\
             mMaterials s !! Z.to_nat aMaterialIdx = Some m) /\
  (aMaterialIdx < 0 \/ Z.of_nat (length (mMaterials s)) <= aMaterialIdx ->
   GetMaterial s aMaterialIdx = Fault IndexOutOfRange).
Proof.
  intros Hint Hlen. unfold in_int in Hint. unfold GetMaterial. split.
  - intros Hin. apply vector_at_in_range; lia.
  - intros [Hneg | Hge].
    + apply vector_at_negative; lia.
    + unfold vector_at. rewrite to_size_t_small by lia.
      rewrite lookup_ge_None_2; [reflexivity | lia].
Qed.

(** X3: [Intersect] returns the hit flag of the aggregate's closest-hit
    query and, of the record that query filled in, changes the light id
    only: distance, material id and normal are the aggregate's. *)
Theorem Intersect_changes_only_lightID (s : Scene) (g : AbstractGeometry)
    (aRay : Ray) (r r' : Isect) (hit : bool) :
  mGeometry s = Some g ->
  Intersect s aRay r = Done (hit, r') ->
  hit = fst (geomIntersect g aRay r) /\
  dist r' = dist (snd (geomIntersect g aRay r)) /\
  matID r' = matID (snd (geomIntersect g aRay r)) /\
  normal r' = normal (snd (geomIntersect g aRay r)).
Proof.
  intros Hg H.
  rewrite (Intersect_with_geometry s g) in H by assumption.
  destruct (geomIntersect g aRay r) as [[|] r1]; injection H as <- <-;
    repeat split.
Qed.

End Accessors.

(** ** The sphere and the rest of the scene *)

Section SphereFrame.

Context {E : Externals}.

Lemma BuildSceneSphere_done (s s' : Scene) :
  BuildSceneSphere s = Done s' ->
  exists b, s' = set_mSceneSphere b s.
Proof.
  unfold BuildSceneSphere, BuildSceneSphere_divs.
  destruct (mGeometry s) as [g|]; [|discriminate].
  destruct (geomGrowBBox g _ _) as [lo hi].
  intros H. injection H as <-. eexists. reflexivity.
Qed.

(** X13: [BuildSceneSphere] writes [mSceneSphere] and nothing else, so
    every query and accessor answers on the returned scene as it did
    before. *)
Theorem BuildSceneSphere_frame (s s' : Scene) :
  BuildSceneSphere s = Done s' ->
  (forall aRay r, Intersect s' aRay r = Intersect s aRay r) /\
  (forall isect0 aPoint aDir aTMax,
     Occluded s' isect0 aPoint aDir aTMax = Occluded s isect0 aPoint aDir aTMax) /\
  (forall i, GetLightPtr s' i = GetLightPtr s i) /\
  (forall i, GetMaterial s' i = GetMaterial s i) /\
  GetBackground s' = GetBackground s /\
  mCamera s' = mCamera s.
Proof.
  intros H. destruct (BuildSceneSphere_done s s' H) as [b ->].
  repeat split.
Qed.

End SphereFrame.

(** ** The box mask, bit by bit *)

Lemma flag_testbit (a i : Z) :
  0 <= i -> negb (Z.land a (2 ^ i) =? 0) = Z.testbit a i.
Proof.
  intros Hi. rewrite land_pow2 by assumption.
  destruct (Z.testbit a i); [|reflexivity].
  destruct (Z.eqb_spec (2 ^ i) 0) as [H0|]; [|reflexivity].
  assert (0 < 2 ^ i) by (apply Z.pow_pos_nonneg; lia). lia.
Qed.

Lemma both_large_balls_test (m : Z) :
  (Z.land m BothLargeBalls =? BothLargeBalls) = Z.testbit m 4 && Z.testbit m 5.
Proof.
  change BothLargeBalls with (Z.lor (2 ^ 4) (2 ^ 5)).
  rewrite Z.land_lor_distr_r, !land_pow2 by lia.
  destruct (Z.testbit m 4), (Z.testbit m 5); reflexivity.
Qed.

Lemma effective_mask_bit (m i : Z) :
  Z.testbit (to_uint (Z.lnot BallLargeGlass)) i = true ->
  Z.testbit (effective_mask m) i = Z.testbit m i.
Proof.
  intros H. unfold effective_mask.
  destruct (Z.land m BothLargeBalls =? BothLargeBalls); [|reflexivity].
  rewrite Z.land_spec, H. apply andb_true_r.
Qed.

Lemma effective_mask_glass (m : Z) :
  Z.testbit (effective_mask m) 5 = Z.testbit m 5 && negb (Z.testbit m 4).
Proof.
  unfold effective_mask. rewrite both_large_balls_test.
  destruct (Z.testbit m 4) eqn:H4, (Z.testbit m 5) eqn:H5; cbn [andb negb];
    rewrite ?Z.land_spec, ?H5, ?H4; reflexivity.
Qed.

Lemma effective_mask_resolved (m : Z) :
  (Z.land (effective_mask m) BothLargeBalls =? BothLargeBalls) = false.
Proof.
  rewrite both_large_balls_test, effective_mask_glass.
  rewrite (effective_mask_bit m 4) by reflexivity.
  destruct (Z.testbit m 4), (Z.testbit m 5); reflexivity.
Qed.

Lemma low_bits_testbit (m i : Z) :
  Z.testbit 255 i = true -> Z.testbit (Z.land m 255) i = Z.testbit m i.
Proof. intros H. rewrite Z.land_spec, H. apply andb_true_r. Qed.

(** ** The steps of [LoadCornellBox] *)

Section Steps.

Context {E : Externals}.

Lemma LoadCornellBox_steps (aResolution : Vec2i) (aBoxMask : Z) (s : Scene) :
  (LoadCornellBox aResolution aBoxMask s).1
  = light_blocks (Z.testbit aBoxMask 0) (Z.testbit aBoxMask 1)
      (Z.testbit aBoxMask 2) (Z.testbit aBoxMask 3)
      (set_mGeometry (Some (GeometryList (cornell_geometry (effective_mask aBoxMask))))
         (set_mMaterials (mMaterials s ++ cornell_materials)
            (set_mCamera (cornell_camera aResolution) s))).
Proof.
  rewrite <- (effective_mask_bit aBoxMask 0), <- (effective_mask_bit aBoxMask 1),
    <- (effective_mask_bit aBoxMask 2), <- (effective_mask_bit aBoxMask 3)
    by reflexivity.
  rewrite <- !flag_testbit by lia.
  unfold LoadCornellBox, effective_mask, light_blocks.
  destruct (Z.land aBoxMask BothLargeBalls =? BothLargeBalls); reflexivity.
Qed.

Lemma LoadCornellBox_output (aResolution : Vec2i) (aBoxMask : Z) (s : Scene) :
  (LoadCornellBox aResolution aBoxMask s).2
  = if Z.testbit aBoxMask 4 && Z.testbit aBoxMask 5
    then both_balls_notice else EmptyString.
Proof.
  rewrite <- both_large_balls_test. unfold LoadCornellBox.
  destruct (Z.land aBoxMask BothLargeBalls =? BothLargeBalls); reflexivity.
Qed.

Lemma cornell_geometry_bits (X Y : Z) :
  Z.testbit X 0 = Z.testbit Y 0 ->
  Z.testbit X 4 = Z.testbit Y 4 ->
  Z.testbit X 5 = Z.testbit Y 5 ->
  Z.testbit X 6 = Z.testbit Y 6 ->
  Z.testbit X 7 = Z.testbit Y 7 ->
  cornell_geometry X = cornell_geometry Y.
Proof.
  intros H0 H4 H5 H6 H7. unfold cornell_geometry.
  change LightCeiling with (2 ^ 0). change BallLargeMirror with (2 ^ 4).
  change BallLargeGlass with (2 ^ 5). change BallMirror with (2 ^ 6).
  change BallGlass with (2 ^ 7).
  rewrite (flag_testbit X 0), (flag_testbit X 4), (flag_testbit X 5),
    (flag_testbit X 6), (flag_testbit X 7) by lia.
  rewrite (flag_testbit Y 0), (flag_testbit Y 4), (flag_testbit Y 5),
    (flag_testbit Y 6), (flag_testbit Y 7) by lia.
  rewrite H0, H4, H5, H6, H7. reflexivity.
Qed.

End Steps.

(** ** What the light blocks do to each field *)

Section LightBlocks.

Context {E : Externals}.

Lemma light_blocks_fields (b0 b1 b2 b3 : bool) (s : Scene) :
  mGeometry (light_blocks b0 b1 b2 b3 s) = mGeometry s /\
  mMaterials (light_blocks b0 b1 b2 b3 s) = mMaterials s /\
  mCamera (light_blocks b0 b1 b2 b3 s) = mCamera s /\
  mSceneSphere (light_blocks b0 b1 b2 b3 s) = mSceneSphere s.
Proof. destruct b0, b1, b2, b3; repeat split. Qed.

Lemma light_blocks_index (b0 b1 b2 b3 : bool) (s : Scene) :
  mMaterial2Light (light_blocks b0 b1 b2 b3 s)
  = if b0 then map_insert 1 1 (map_insert 0 0 (mMaterial2Light s))
    else mMaterial2Light s.
Proof. destruct b0, b1, b2, b3; reflexivity. Qed.

Lemma light_blocks_background (b0 b1 b2 b3 : bool) (s : Scene) :
  mBackground (light_blocks b0 b1 b2 b3 s)
  = if b3 then Some (mkBackgroundLight (F32.of_Z 1)) else mBackground s.
Proof. destruct b0, b1, b2, b3; reflexivity. Qed.

Lemma add_ceiling_lights_lights (s : Scene) :
  exists i,
    mLights (add_ceiling_lights s)
    = [Some (AreaLight (corner 2) (corner 6) (corner 7) i);
       Some (AreaLight (corner 7) (corner 3) (corner 2) i)].
Proof.
  exists (Vec3f.splat (F32.dec 95492965 (-8))).
  unfold add_ceiling_lights. cbv zeta.
  unfold set_mMaterial2Light, set_mLights. cbn [mLights].
  assert (H := vector_resize_length 2 None (mLights s)).
  destruct (vector_resize 2 None (mLights s)) as [|x [|y [|z l]]];
    try discriminate.
  reflexivity.
Qed.

(** The lights of the scene after the four blocks: the ceiling block
    leaves exactly its two area lights, each later block appends one. *)
Lemma light_blocks_lights (b0 b1 b2 b3 : bool) (s : Scene) :
  exists (i : Vec3f) (sun point : AbstractLight),
    mLights (light_blocks b0 b1 b2 b3 s)
    = (if b0
       then [Some (AreaLight (corner 2) (corner 6) (corner 7) i);
             Some (AreaLight (corner 7) (corner 3) (corner 2) i)]
       else mLights s)
      ++ (if b1 then [Some sun] else [])
      ++ (if b2 then [Some point] else [])
      ++ (if b3 then [Some (Background (mkBackgroundLight (F32.of_Z 1)))] else []).
Proof.
  destruct (add_ceiling_lights_lights s) as [i Hi].
  exists i. unfold light_blocks.
  set (s1 := if b0 then add_ceiling_lights s else s).
  assert (H1 : mLights s1
               = if b0
                 then [Some (AreaLight (corner 2) (corner 6) (corner 7) i);
                       Some (AreaLight (corner 7) (corner 3) (corner 2) i)]
                 else mLights s).
  { subst s1. destruct b0; [exact Hi | reflexivity]. }
  rewrite <- H1. clearbody s1. clear H1 Hi.
  eexists _, _.
  destruct b1, b2, b3;
    unfold add_sun, add_point_light, add_background; cbv zeta;
    unfold set_mLights, set_mBackground; cbn [mLights];
    rewrite <- ?app_assoc, ?app_nil_r; reflexivity.
Qed.

End LightBlocks.

(** ** The loaded scene *)

Section Loaded.

Context {E : Externals}.

Lemma LoadCornellBox_materials (aResolution : Vec2i) (aBoxMask : Z) (s : Scene) :
  mMaterials (LoadCornellBox aResolution aBoxMask s).1
  = mMaterials s ++ cornell_materials.
Proof.
  rewrite LoadCornellBox_steps.
  destruct (light_blocks_fields (Z.testbit aBoxMask 0) (Z.testbit aBoxMask 1)
              (Z.testbit aBoxMask 2) (Z.testbit aBoxMask 3)
              (set_mGeometry
                 (Some (GeometryList (cornell_geometry (effective_mask aBoxMask))))
                 (set_mMaterials (mMaterials s ++ cornell_materials)
                    (set_mCamera (cornell_camera aResolution) s))))
    as [_ [H _]].
  exact H.
Qed.

Lemma LoadCornellBox_lights (aResolution : Vec2i) (aBoxMask : Z) (s : Scene) :
  exists (i : Vec3f) (sun point : AbstractLight),
    mLights (LoadCornellBox aResolution aBoxMask s).1
    = (if Z.testbit aBoxMask 0
       then [Some (AreaLight (corner 2) (corner 6) (corner 7) i);
             Some (AreaLight (corner 7) (corner 3) (corner 2) i)]
       else mLights s)
      ++ (if Z.testbit aBoxMask 1 then [Some sun] else [])
      ++ (if Z.testbit aBoxMask 2 then [Some point] else [])
      ++ (if Z.testbit aBoxMask 3
          then [Some (Background (mkBackgroundLight (F32.of_Z 1)))] else []).
Proof.
  rewrite LoadCornellBox_steps.
  destruct (light_blocks_lights (Z.testbit aBoxMask 0) (Z.testbit aBoxMask 1)
              (Z.testbit aBoxMask 2) (Z.testbit aBoxMask 3)
              (set_mGeometry
                 (Some (GeometryList (cornell_geometry (effective_mask aBoxMask))))
                 (set_mMaterials (mMaterials s ++ cornell_materials)
                    (set_mCamera (cornell_camera aResolution) s))))
    as [i [sun [pt H]]].
  exists i, sun, pt. exact H.
Qed.

Lemma LoadCornellBox_index (aResolution : Vec2i) (aBoxMask : Z) (s : Scene) :
  mMaterial2Light (LoadCornellBox aResolution aBoxMask s).1
  = if Z.testbit aBoxMask 0
    then map_insert 1 1 (map_insert 0 0 (mMaterial2Light s))
    else mMaterial2Light s.
Proof. rewrite LoadCornellBox_steps, light_blocks_index. reflexivity. Qed.

Lemma cornell_geometry_matIDs (X : Z) (prim : AbstractGeometry) :
  In prim (cornell_geometry X) ->
  exists k, prim_matID prim = Some k /\ 0 <= k < 8.
Proof.
  unfold cornell_geometry.
  generalize smallRadius, largeRadius, largeBallCenter, leftBallCenter,
    rightBallCenter, corner.
  intros rs rl cl cleft cright p.
  rewrite !in_app_iff.
  destruct (negb (Z.land X LightCeiling =? 0)),
           (negb (Z.land X BallLargeMirror =? 0)),
           (negb (Z.land X BallLargeGlass =? 0)),
           (negb (Z.land X BallMirror =? 0)),
           (negb (Z.land X BallGlass =? 0));
    cbn [In]; intros H; decompose [or] H; clear H; try contradiction; subst prim;
    (eexists; split; [reflexivity | lia]).
Qed.

Lemma LoadCornellBox_builds (aResolution : Vec2i) (aBoxMask : Z) (s : Scene) :
  exists s', BuildSceneSphere (LoadCornellBox aResolution aBoxMask s).1 = Done s'.
Proof.
  assert (Hg := LoadCornellBox_geometry aResolution aBoxMask s).
  set (s1 := (LoadCornellBox aResolution aBoxMask s).1) in *.
  set (g := GeometryList _) in Hg.
  destruct (geomGrowBBox g (Vec3f.splat (F32.dec 1 36))
              (Vec3f.splat (F32.neg (F32.dec 1 36)))) as [lo hi] eqn:Hbox.
  unfold BuildSceneSphere.
  rewrite (BuildSceneSphere_divs_geometry s1 g lo hi Hg Hbox). eauto.
Qed.

(** X4: whatever the scene was, after [LoadCornellBox] it holds a
    geometry aggregate, so [Intersect], [Occluded] and [BuildSceneSphere]
    all return. *)
Theorem LoadCornellBox_then_queries (aResolution : Vec2i) (aBoxMask : Z)
    (s : Scene) (aRay : Ray) (r isect0 : Isect) (aPoint aDir : Vec3f)
    (aTMax : float) :
  (exists hit r',
     Intersect (LoadCornellBox aResolution aBoxMask s).1 aRay r = Done (hit, r')) /\
  (exists b,
     Occluded (LoadCornellBox aResolution aBoxMask s).1 isect0 aPoint aDir aTMax
     = Done b) /\
  (exists s', BuildSceneSphere (LoadCornellBox aResolution aBoxMask s).1 = Done s').
Proof.
  assert (Hg := LoadCornellBox_geometry aResolution aBoxMask s).
  set (s1 := (LoadCornellBox aResolution aBoxMask s).1) in *.
  set (g := GeometryList _) in Hg.
  split; [|split].
  - rewrite (Intersect_with_geometry s1 g) by exact Hg.
    destruct (geomIntersect g aRay r) as [[|] r1]; eauto.
  - unfold Occluded. rewrite Hg. eauto.
  - apply LoadCornellBox_builds.
Qed.

(** X5: after [LoadCornellBox] every primitive of the geometry carries a
    material id between 0 and 7, and [GetMaterial] returns a material for
    it; when the material table was empty before the call, that material
    is the one the call pushed in that position. *)
Theorem LoadCornellBox_material_ids (aResolution : Vec2i) (aBoxMask : Z)
    (s : Scene) (prims : list AbstractGeometry) (prim : AbstractGeometry) :
  mGeometry (LoadCornellBox aResolution aBoxMask s).1 = Some (GeometryList prims) ->
  In prim prims ->
  exists k mat,
    prim_matID prim = Some k /\ 0 <= k < 8 /\
    GetMaterial (LoadCornellBox aResolution aBoxMask s).1 k = Done mat /\
    (mMaterials s = [] -> cornell_materials !! Z.to_nat k = Some mat).
Proof.
  intros Hg Hin.
  rewrite LoadCornellBox_geometry in Hg. injection Hg as <-.
  destruct (cornell_geometry_matIDs _ _ Hin) as [k [Hk Hr]].
  unfold GetMaterial. rewrite LoadCornellBox_materials.
  destruct (vector_at_in_range (mMaterials s ++ cornell_materials) k)
    as [mat [H1 H2]].
  - rewrite length_app. change (length cornell_materials) with 8%nat. lia.
  - lia.
  - exists k, mat. repeat split; try assumption; try lia.
    intros Hnil. rewrite Hnil in H2. exact H2.
Qed.

(** X6: the number of lights after [LoadCornellBox]. The ceiling block
    resizes the collection to its two area lights, whatever it held; the
    sun, the point light and the background each add one. *)
Theorem LoadCornellBox_light_count (aResolution : Vec2i) (aBoxMask : Z) (s : Scene) :
  Z.of_nat (length (mLights s)) + 3 < 2 ^ 31 ->
  GetLightCount (LoadCornellBox aResolution aBoxMask s).1
  = (if Z.testbit aBoxMask 0 then 2 else GetLightCount s)
    + Z.b2z (Z.testbit aBoxMask 1) + Z.b2z (Z.testbit aBoxMask 2)
    + Z.b2z (Z.testbit aBoxMask 3).
Proof.
  intros Hlen. unfold GetLightCount.
  destruct (LoadCornellBox_lights aResolution aBoxMask s) as [i [sun [pt ->]]].
  rewrite (to_int_small (Z.of_nat (length (mLights s)))) by (unfold in_int; lia).
  rewrite !length_app.
  destruct (Z.testbit aBoxMask 0), (Z.testbit aBoxMask 1),
    (Z.testbit aBoxMask 2), (Z.testbit aBoxMask 3);
    cbn [length Z.b2z]; rewrite to_int_small; unfold in_int; lia.
Qed.

(** X7: with [LightBackground] the call appends a background light and
    makes [mBackground] designate it: [GetBackground] is then the last
    element of the light collection. Without the option [mBackground] is
    left as it was. *)
Theorem LoadCornellBox_background (aResolution : Vec2i) (aBoxMask : Z) (s : Scene) :
  (Z.testbit aBoxMask 3 = true ->
   exists bg,
     GetBackground (LoadCornellBox aResolution aBoxMask s).1 = Some bg /\
     last (mLights (LoadCornellBox aResolution aBoxMask s).1)
     = Some (Some (Background bg))) /\
  (Z.testbit aBoxMask 3 = false ->
   GetBackground (LoadCornellBox aResolution aBoxMask s).1 = GetBackground s).
Proof.
  unfold GetBackground.
  destruct (LoadCornellBox_lights aResolution aBoxMask s) as [i [sun [pt ->]]].
  rewrite LoadCornellBox_steps, light_blocks_background.
  split; intros ->; [|reflexivity].
  eexists. split; [reflexivity|].
  rewrite !app_assoc. apply last_snoc.
Qed.

(** X16: the call never removes or overwrites an entry of the
    material-to-light index ([std::map::insert] keeps the value of a key
    that is present). Without [LightCeiling] the index is left as it is;
    with it, the keys 0 and 1 have entries afterwards. *)
Theorem LoadCornellBox_index_grows (aResolution : Vec2i) (aBoxMask : Z) (s : Scene) :
  (forall k v, mMaterial2Light s !! k = Some v ->
     mMaterial2Light (LoadCornellBox aResolution aBoxMask s).1 !! k = Some v) /\
  (Z.testbit aBoxMask 0 = false ->
   mMaterial2Light (LoadCornellBox aResolution aBoxMask s).1 = mMaterial2Light s) /\
  (Z.testbit aBoxMask 0 = true ->
   mMaterial2Light (LoadCornellBox aResolution aBoxMask s).1 !! 0
     = Some (default 0 (mMaterial2Light s !! 0)) /\
   mMaterial2Light (LoadCornellBox aResolution aBoxMask s).1 !! 1
     = Some (default 1 (mMaterial2Light s !! 1))).
Proof.
  rewrite LoadCornellBox_index.
  assert (Hkeep : forall (m : gmap Z Z) k' v' k v,
            m !! k = Some v -> map_insert k' v' m !! k = Some v).
  { intros m k' v' k v H. unfold map_insert.
    destruct (m !! k') eqn:Hk'; [exact H|].
    rewrite lookup_insert_ne; [exact H|]. congruence. }
  assert (Hnew : forall (m : gmap Z Z) k v,
            map_insert k v m !! k = Some (default v (m !! k))).
  { intros m k v. unfold map_insert.
    destruct (m !! k) eqn:Hk; [exact Hk|]. apply lookup_insert_eq. }
  split; [|split].
  - intros k v H. destruct (Z.testbit aBoxMask 0); [|exact H].
    apply Hkeep, Hkeep, H.
  - intros ->. reflexivity.
  - intros ->. split.
    + apply Hkeep, Hnew.
    + rewrite Hnew. f_equal.
      unfold map_insert. destruct (mMaterial2Light s !! 0); [reflexivity|].
      rewrite lookup_insert_ne by discriminate. reflexivity.
Qed.

End Loaded.

(** ** Emitters, large balls and unused bits *)

Section Options.

Context {E : Externals}.

Lemma cornell_geometry_ceiling (X : Z) :
  Z.testbit X 0 = true ->
  In (Triangle (corner 2) (corner 6) (corner 7) 0) (cornell_geometry X) /\
  In (Triangle (corner 7) (corner 3) (corner 2) 1) (cornell_geometry X).
Proof.
  intros H0. unfold cornell_geometry.
  change LightCeiling with (2 ^ 0). rewrite (flag_testbit X 0), H0 by lia.
  rewrite !in_app_iff. split; right; left.
  - left. reflexivity.
  - right. left. reflexivity.
Qed.

(** X8: on a scene whose index was empty, every entry the call puts in
    the material-to-light index maps the material id of a triangle of the
    geometry to an area light built on the same three vertices, and
    [GetLightPtr] returns that light for the mapped id. *)
Theorem LoadCornellBox_emitters (aResolution : Vec2i) (aBoxMask : Z) (s : Scene)
    (prims : list AbstractGeometry) (k v : Z) :
  mMaterial2Light s = ∅ ->
  mGeometry (LoadCornellBox aResolution aBoxMask s).1 = Some (GeometryList prims) ->
  mMaterial2Light (LoadCornellBox aResolution aBoxMask s).1 !! k = Some v ->
  exists a b c i,
    In (Triangle a b c k) prims /\
    GetLightPtr (LoadCornellBox aResolution aBoxMask s).1 v
    = Done (Some (AreaLight a b c i)).
Proof.
  intros Hempty Hg Hk.
  rewrite LoadCornellBox_geometry in Hg. injection Hg as <-.
  rewrite LoadCornellBox_index, Hempty in Hk.
  destruct (Z.testbit aBoxMask 0) eqn:H0;
    [|rewrite lookup_empty in Hk; discriminate].
  rewrite map_insert_ceiling in Hk by auto.
  destruct (cornell_geometry_ceiling (effective_mask aBoxMask)) as [T0 T1].
  { rewrite effective_mask_bit by reflexivity. exact H0. }
  fold (effective_mask aBoxMask).
  unfold GetLightPtr.
  destruct (LoadCornellBox_lights aResolution aBoxMask s) as [i [sun [pt ->]]].
  rewrite H0.
  destruct (decide (k = 1)) as [-> | H1].
  - rewrite lookup_insert_eq in Hk. injection Hk as <-.
    exists (corner 7), (corner 3), (corner 2), i. split; [exact T1|].
    destruct (Z.testbit aBoxMask 1), (Z.testbit aBoxMask 2),
      (Z.testbit aBoxMask 3); reflexivity.
  - rewrite lookup_insert_ne in Hk by congruence.
    destruct (decide (k = 0)) as [-> | Hk0].
    + rewrite lookup_insert_eq in Hk. injection Hk as <-.
      exists (corner 2), (corner 6), (corner 7), i. split; [exact T0|].
      destruct (Z.testbit aBoxMask 1), (Z.testbit aBoxMask 2),
        (Z.testbit aBoxMask 3); reflexivity.
    + rewrite lookup_insert_ne, lookup_empty in Hk by congruence. discriminate.
Qed.

Lemma cornell_geometry_large_balls (X : Z) :
  (In (Sphere largeBallCenter largeRadius 6) (cornell_geometry X)
   <-> Z.testbit X 4 = true) /\
  (In (Sphere largeBallCenter largeRadius 7) (cornell_geometry X)
   <-> Z.testbit X 5 = true).
Proof.
  unfold cornell_geometry.
  change LightCeiling with (2 ^ 0). change BallLargeMirror with (2 ^ 4).
  change BallLargeGlass with (2 ^ 5). change BallMirror with (2 ^ 6).
  change BallGlass with (2 ^ 7).
  rewrite (flag_testbit X 0), (flag_testbit X 4), (flag_testbit X 5),
    (flag_testbit X 6), (flag_testbit X 7) by lia.
  generalize radii_differ.
  generalize smallRadius, largeRadius, largeBallCenter, leftBallCenter,
    rightBallCenter, corner.
  intros rs rl cl cleft cright p Hr.
  rewrite !in_app_iff.
  split; split.
  - intros H. destruct (Z.testbit X 4); [reflexivity|]. exfalso.
    destruct (Z.testbit X 0), (Z.testbit X 5), (Z.testbit X 6), (Z.testbit X 7);
      cbn [In] in H; decompose [or] H; clear H;
      try discriminate; try contradiction;
      match goal with
      | H : Sphere _ rs _ = Sphere _ rl _ |- _ =>
          injection H as _ Hrad; exact (Hr Hrad)
      end.
  - intros ->. right. right. right. left. left. reflexivity.
  - intros H. destruct (Z.testbit X 5); [reflexivity|]. exfalso.
    destruct (Z.testbit X 0), (Z.testbit X 4), (Z.testbit X 6), (Z.testbit X 7);
      cbn [In] in H; decompose [or] H; clear H;
      try discriminate; try contradiction;
      match goal with
      | H : Sphere _ rs _ = Sphere _ rl _ |- _ =>
          injection H as _ Hrad; exact (Hr Hrad)
      end.
  - intros ->. right. right. right. right. left. left. reflexivity.
Qed.

(** X9: the large balls for every mask. The geometry holds the large
    mirror ball exactly when [BallLargeMirror] is set, the large glass
    ball exactly when [BallLargeGlass] is set and [BallLargeMirror] is
    not, so never both; the notice is printed exactly when both are set,
    and nothing is printed otherwise. *)
Theorem LoadCornellBox_large_balls (aResolution : Vec2i) (aBoxMask : Z) (s : Scene) :
  exists prims,
    mGeometry (LoadCornellBox aResolution aBoxMask s).1 = Some (GeometryList prims) /\
    (In (Sphere largeBallCenter largeRadius 6) prims
     <-> Z.testbit aBoxMask 4 = true) /\
    (In (Sphere largeBallCenter largeRadius 7) prims
     <-> Z.testbit aBoxMask 5 = true /\ Z.testbit aBoxMask 4 = false) /\
    ~ (In (Sphere largeBallCenter largeRadius 6) prims /\
       In (Sphere largeBallCenter largeRadius 7) prims) /\
    ((LoadCornellBox aResolution aBoxMask s).2 = both_balls_notice
     <-> Z.testbit aBoxMask 4 = true /\ Z.testbit aBoxMask 5 = true) /\
    ((LoadCornellBox aResolution aBoxMask s).2 = EmptyString
     <-> ~ (Z.testbit aBoxMask 4 = true /\ Z.testbit aBoxMask 5 = true)).
Proof.
  exists (cornell_geometry (effective_mask aBoxMask)).
  destruct (cornell_geometry_large_balls (effective_mask aBoxMask)) as [Hm Hgl].
  rewrite (effective_mask_bit aBoxMask 4) in Hm by reflexivity.
  rewrite effective_mask_glass in Hgl.
  rewrite LoadCornellBox_output.
  split; [apply LoadCornellBox_geometry|].
  split; [exact Hm|].
  assert (Hne : both_balls_notice <> EmptyString) by (vm_compute; discriminate).
  destruct (Z.testbit aBoxMask 4), (Z.testbit aBoxMask 5);
    cbn [andb negb] in *; repeat split; try tauto; try congruence;
    intuition congruence.
Qed.

(** X10: the call reads the eight option bits of the mask and nothing
    else: a mask and its low eight bits load the same scene and print the
    same text. *)
Theorem LoadCornellBox_low_bits (aResolution : Vec2i) (aBoxMask : Z) (s : Scene) :
  LoadCornellBox aResolution (Z.land aBoxMask 255) s
  = LoadCornellBox aResolution aBoxMask s.
Proof.
  rewrite (surjective_pairing (LoadCornellBox aResolution (Z.land aBoxMask 255) s)).
  rewrite (surjective_pairing (LoadCornellBox aResolution aBoxMask s)).
  f_equal.
  - rewrite !LoadCornellBox_steps.
    rewrite !low_bits_testbit by reflexivity.
    rewrite (cornell_geometry_bits (effective_mask (Z.land aBoxMask 255))
               (effective_mask aBoxMask)); [reflexivity | | | | | ].
    + rewrite !effective_mask_bit by reflexivity.
      apply low_bits_testbit. reflexivity.
    + rewrite !effective_mask_bit by reflexivity.
      apply low_bits_testbit. reflexivity.
    + rewrite !effective_mask_glass, !low_bits_testbit by reflexivity.
      reflexivity.
    + rewrite !effective_mask_bit by reflexivity.
      apply low_bits_testbit. reflexivity.
    + rewrite !effective_mask_bit by reflexivity.
      apply low_bits_testbit. reflexivity.
  - rewrite !LoadCornellBox_output, !low_bits_testbit by reflexivity.
    reflexivity.
Qed.

End Options.

(** ** Scenes loaded any number of times *)

Section Reloaded.

Context {E : Externals}.

Lemma LoadCornellBox_ceiling_lights (aResolution : Vec2i) (aBoxMask : Z) (s : Scene) :
  ceiling_lights s -> ceiling_lights (LoadCornellBox aResolution aBoxMask s).1.
Proof.
  intros H. unfold ceiling_lights.
  rewrite LoadCornellBox_index.
  destruct (LoadCornellBox_lights aResolution aBoxMask s) as [i [sun [pt ->]]].
  destruct (Z.testbit aBoxMask 0).
  - right. split.
    + apply map_insert_ceiling. destruct H as [H | [H _]]; auto.
    + cbn [app]. eauto 12.
  - destruct H as [H | [H [a0 [b0 [c0 [i0 [a1 [b1 [c1 [i1 [rest Hl]]]]]]]]]]];
      [left; exact H | right; split; [exact H|]].
    rewrite Hl. cbn [app]. eauto 12.
Qed.

Lemma loaded_ceiling_lights (s : Scene) : loaded s -> ceiling_lights s.
Proof.
  induction 1 as [sphere0 | res mask s Hs IH].
  - left. reflexivity.
  - apply LoadCornellBox_ceiling_lights, IH.
Qed.

(** X11: in a scene loaded any number of times, the light id of a hit is
    -1 or the id of an area light that [GetLightPtr] returns: the shading
    code never gets a null pointer or a fault for the light of a hit. *)
Theorem loaded_hit_light (s : Scene) (aRay : Ray) (r r' : Isect) :
  loaded s ->
  Z.of_nat (length (mLights s)) < 2 ^ 31 ->
  Intersect s aRay r = Done (true, r') ->
  lightID r' = -1 \/
  exists a b c i, GetLightPtr s (lightID r') = Done (Some (AreaLight a b c i)).
Proof.
  intros Hl Hlen H.
  destruct (Intersect_done_geometry _ _ _ _ H) as [g Hg].
  rewrite (Intersect_with_geometry s g) in H by assumption.
  destruct (geomIntersect g aRay r) as [[|] r1]; [|discriminate].
  injection H as <-. cbn [lightID set_lightID].
  destruct (loaded_ceiling_lights s Hl)
    as [Hi | [Hi [a0 [b0 [c0 [i0 [a1 [b1 [c1 [i1 [rest Hlights]]]]]]]]]]].
  - left. rewrite Hi, lookup_empty. reflexivity.
  - rewrite Hi.
    assert (Hcount : 2 <= Z.of_nat (length (mLights s)))
      by (rewrite Hlights; cbn [length]; lia).
    assert (Hlast : to_int (to_size_t (Z.of_nat (length (mLights s)) - 1))
                    = Z.of_nat (length (mLights s)) - 1).
    { rewrite to_size_t_small by lia. apply to_int_small. unfold in_int. lia. }
    assert (Hget : forall l, 0 <= l < 2 ->
              exists x, GetLightPtr s l = Done x /\ mLights s !! Z.to_nat l = Some x).
    { intros l Hrange. unfold GetLightPtr. rewrite Hlast.
      rewrite Z.min_l by lia.
      apply vector_at_in_range; lia. }
    destruct (decide (matID r1 = 1)) as [-> | H1].
    + right. rewrite lookup_insert_eq. cbn [default].
      destruct (Hget 1) as [x [Hx Hat]]; [lia|].
      rewrite Hlights in Hat. injection Hat as <-. eauto.
    + rewrite lookup_insert_ne by congruence.
      destruct (decide (matID r1 = 0)) as [-> | H0].
      * right. rewrite lookup_insert_eq. cbn [default].
        destruct (Hget 0) as [x [Hx Hat]]; [lia|].
        rewrite Hlights in Hat. injection Hat as <-. eauto.
      * left. rewrite lookup_insert_ne, lookup_empty by congruence. reflexivity.
Qed.

End Reloaded.

(** ** Signs and the sphere of an aggregate that grows nothing *)

Lemma binary_round_aux_not_negative (m e : Z) (l : location) :
  not_negative (binary_round_aux F32.prec F32.emax false m e l) = true.
Proof.
  unfold binary_round_aux.
  destruct (shr_fexp F32.prec F32.emax m e l) as [mrs e1].
  destruct (shr_fexp F32.prec F32.emax _ e1 loc_Exact) as [mrs2 e2].
  destruct (shr_m mrs2); [reflexivity | | reflexivity].
  destruct (e2 <=? F32.emax - F32.prec); reflexivity.
Qed.

Lemma Sqr_not_negative (a : float) : not_negative (Sqr a) = true.
Proof.
  unfold Sqr, F32.mul, SFmul.
  destruct a as [sg | sg | | sg m e].
  - destruct sg; reflexivity.
  - destruct sg; reflexivity.
  - reflexivity.
  - replace (xorb sg sg) with false by (destruct sg; reflexivity).
    apply binary_round_aux_not_negative.
Qed.

Lemma add_not_negative (a b : float) :
  not_negative a = true -> not_negative b = true ->
  not_negative (F32.add a b) = true.
Proof.
  unfold F32.add, SFadd.
  destruct a as [sa | sa | | sa ma ea], b as [sb | sb | | sb mb eb];
    cbn [not_negative]; intros Ha Hb;
    try (destruct sa; try discriminate); try (destruct sb; try discriminate);
    try reflexivity.
  cbv zeta. cbn [cond_Zopp].
  generalize (shl_align ma ea (Z.min ea eb)).1, (shl_align mb eb (Z.min ea eb)).1.
  intros pa pb. change (Z.pos pa + Z.pos pb) with (Z.pos (pa + pb)).
  unfold binary_normalize, binary_round.
  destruct (shl_align _ _ _) as [mz ez].
  apply binary_round_aux_not_negative.
Qed.

Lemma sqrt_not_negative (a : float) :
  not_negative a = true -> not_negative (F32.sqrt a) = true.
Proof.
  unfold F32.sqrt, SFsqrt.
  destruct a as [sa | sa | | sa ma ea]; cbn [not_negative]; intros Ha.
  - destruct sa; [discriminate | reflexivity].
  - destruct sa; [discriminate | reflexivity].
  - reflexivity.
  - destruct sa; [discriminate|].
    destruct (SFsqrt_core_binary _ _ _ _) as [[mz ez] lz].
    apply binary_round_aux_not_negative.
Qed.

Lemma mul_half_not_negative (a : float) :
  not_negative a = true -> not_negative (F32.mul a (F32.dec 5 (-1))) = true.
Proof.
  change (F32.dec 5 (-1)) with (S754_finite false 8388608 (-24)).
  unfold F32.mul, SFmul.
  destruct a as [sa | sa | | sa ma ea]; cbn [not_negative]; intros Ha.
  - destruct sa; [discriminate | reflexivity].
  - destruct sa; [discriminate | reflexivity].
  - reflexivity.
  - destruct sa; [discriminate|]. cbn [xorb].
    apply binary_round_aux_not_negative.
Qed.

Lemma inverse_not_negative (a : float) :
  not_negative a = true -> not_negative (F32.div (F32.of_Z 1) a) = true.
Proof.
  change (F32.of_Z 1) with (S754_finite false 8388608 (-23)).
  unfold F32.div, SFdiv.
  destruct a as [sa | sa | | sa ma ea]; cbn [not_negative]; intros Ha.
  - destruct sa; [discriminate | reflexivity].
  - destruct sa; [discriminate | reflexivity].
  - reflexivity.
  - destruct sa; [discriminate|]. cbn [xorb].
    destruct (SFdiv_core_binary _ _ _ _ _ _) as [[mz ez] lz].
    apply binary_round_aux_not_negative.
Qed.

Section SphereValues.

Context {E : Externals}.

(** X14: whatever bounds [GrowBBox] returns, the radius and the inverse
    squared radius [BuildSceneSphere] stores are not negative: each is a
    float with a clear sign bit, or NaN. *)
Theorem BuildSceneSphere_not_negative (s s' : Scene) :
  BuildSceneSphere s = Done s' ->
  not_negative (mSceneRadius (mSceneSphere s')) = true /\
  not_negative (mInvSceneRadiusSqr (mSceneSphere s')) = true.
Proof.
  unfold BuildSceneSphere, BuildSceneSphere_divs.
  destruct (mGeometry s) as [g|]; [|discriminate].
  destruct (geomGrowBBox g _ _) as [lo hi].
  intros H. injection H as <-.
  cbn [mSceneSphere set_mSceneSphere mSceneRadius mInvSceneRadiusSqr].
  split.
  - apply mul_half_not_negative, sqrt_not_negative.
    unfold Vec3f.LenSqr.
    apply add_not_negative; [apply add_not_negative|]; apply Sqr_not_negative.
  - apply inverse_not_negative, Sqr_not_negative.
Qed.

(** X15: when [GrowBBox] leaves the bounds it is given untouched (an
    aggregate that owns no primitive), the box stays inverted at
    [1e36, -1e36]: the centre is (0,0,0), the squared diagonal overflows,
    the radius is plus infinity and the inverse squared radius is 0. *)
Theorem BuildSceneSphere_nothing_grown (s : Scene) (g : AbstractGeometry) :
  mGeometry s = Some g ->
  geomGrowBBox g (Vec3f.splat (F32.dec 1 36)) (Vec3f.splat (F32.neg (F32.dec 1 36)))
    = (Vec3f.splat (F32.dec 1 36), Vec3f.splat (F32.neg (F32.dec 1 36))) ->
  BuildSceneSphere s
  = Done (set_mSceneSphere
            (mkSceneSphere (Vec3f.splat (S754_zero false)) (S754_infinity false)
               (S754_zero false)) s).
Proof.
  intros Hg Hbox. unfold BuildSceneSphere.
  rewrite (BuildSceneSphere_divs_geometry s g _ _ Hg Hbox).
  apply f_equal. apply (f_equal (fun b => set_mSceneSphere b s)).
  vm_compute. reflexivity.
Qed.

End SphereValues.

Section Reload.

Context {E : Externals}.

(** X17: the call replaces the geometry and leaves the scene sphere as it
    was. The geometry after the call is fixed by the mask alone, so is the
    sphere [BuildSceneSphere] then computes; until it is called the sphere
    of the previous scene stays in place. *)
Theorem LoadCornellBox_replaces_geometry (aResolution : Vec2i) (aBoxMask : Z)
    (s1 s2 sa sb : Scene) :
  BuildSceneSphere (LoadCornellBox aResolution aBoxMask s1).1 = Done sa ->
  BuildSceneSphere (LoadCornellBox aResolution aBoxMask s2).1 = Done sb ->
  mGeometry (LoadCornellBox aResolution aBoxMask s1).1
    = mGeometry (LoadCornellBox aResolution aBoxMask s2).1 /\
  mSceneSphere (LoadCornellBox aResolution aBoxMask s1).1 = mSceneSphere s1 /\
  mSceneSphere sa = mSceneSphere sb.
Proof.
  intros Ha Hb.
  assert (Hg1 := LoadCornellBox_geometry aResolution aBoxMask s1).
  assert (Hg2 := LoadCornellBox_geometry aResolution aBoxMask s2).
  split; [congruence|]. split.
  - rewrite LoadCornellBox_steps.
    destruct (light_blocks_fields (Z.testbit aBoxMask 0) (Z.testbit aBoxMask 1)
                (Z.testbit aBoxMask 2) (Z.testbit aBoxMask 3)
                (set_mGeometry
                   (Some (GeometryList (cornell_geometry (effective_mask aBoxMask))))
                   (set_mMaterials (mMaterials s1 ++ cornell_materials)
                      (set_mCamera (cornell_camera aResolution) s1))))
      as [_ [_ [_ H]]].
    exact H.
  - revert Ha Hb. unfold BuildSceneSphere, BuildSceneSphere_divs.
    rewrite Hg1, Hg2.
    destruct (geomGrowBBox _ _ _) as [lo hi].
    intros Ha Hb. injection Ha as <-. injection Hb as <-. reflexivity.
Qed.

End Reload.

Section Reloaded2.

Context {E : Externals}.

(** X12: the invariant of the material-to-light index holds in every
    scene built by loading the Cornell box any number of times, with any
    masks, into a freshly constructed scene: each value of the index is an
    index into the light collection, although a load with [LightCeiling]
    cuts the collection down to two lights and the others only append. *)
Theorem reloaded_light_index (s : Scene) :
  loaded s ->
  light_index_valid s /\
  (forall k v, mMaterial2Light s !! k = Some v -> k = v /\ 0 <= v < 2).
Proof.
  intros H. split.
  - apply ceiling_index_valid, loaded_ceiling_index, H.
  - intros k v Hk.
    destruct (loaded_ceiling_index s H) as [He | [He _]]; rewrite He in Hk.
    + rewrite lookup_empty in Hk. discriminate.
    + destruct (decide (k = 1)) as [-> | H1].
      * rewrite lookup_insert_eq in Hk. injection Hk as <-. lia.
      * rewrite lookup_insert_ne in Hk by congruence.
        destruct (decide (k = 0)) as [-> | H0].
        -- rewrite lookup_insert_eq in Hk. injection Hk as <-. lia.
        -- rewrite lookup_insert_ne, lookup_empty in Hk by congruence.
           discriminate.
Qed.

(** X18: the options [LightSun], [LightPoint] and [LightBackground] do
    not change what rays hit. Two masks that agree on the ceiling and ball
    bits load, into the same scene, scenes on which [Intersect] and
    [Occluded] answer alike. *)
Theorem LoadCornellBox_light_options_queries (aResolution : Vec2i)
    (mask1 mask2 : Z) (s : Scene) :
  Z.testbit mask1 0 = Z.testbit mask2 0 ->
  Z.testbit mask1 4 = Z.testbit mask2 4 ->
  Z.testbit mask1 5 = Z.testbit mask2 5 ->
  Z.testbit mask1 6 = Z.testbit mask2 6 ->
  Z.testbit mask1 7 = Z.testbit mask2 7 ->
  (forall aRay r,
     Intersect (LoadCornellBox aResolution mask1 s).1 aRay r
     = Intersect (LoadCornellBox aResolution mask2 s).1 aRay r) /\
  (forall isect0 aPoint aDir aTMax,
     Occluded (LoadCornellBox aResolution mask1 s).1 isect0 aPoint aDir aTMax
     = Occluded (LoadCornellBox aResolution mask2 s).1 isect0 aPoint aDir aTMax).
Proof.
  intros H0 H4 H5 H6 H7.
  assert (Hgeo : cornell_geometry (effective_mask mask1)
                 = cornell_geometry (effective_mask mask2)).
  { apply cornell_geometry_bits.
    - rewrite !effective_mask_bit by reflexivity. exact H0.
    - rewrite !effective_mask_bit by reflexivity. exact H4.
    - rewrite !effective_mask_glass, H4, H5. reflexivity.
    - rewrite !effective_mask_bit by reflexivity. exact H6.
    - rewrite !effective_mask_bit by reflexivity. exact H7. }
  assert (Hg1 := LoadCornellBox_geometry aResolution mask1 s).
  assert (Hg2 := LoadCornellBox_geometry aResolution mask2 s).
  fold (effective_mask mask1) in Hg1. fold (effective_mask mask2) in Hg2.
  rewrite Hgeo in Hg1.
  assert (Hi : mMaterial2Light (LoadCornellBox aResolution mask1 s).1
               = mMaterial2Light (LoadCornellBox aResolution mask2 s).1).
  { rewrite !LoadCornellBox_index, H0. reflexivity. }
  split.
  - intros aRay r.
    rewrite (Intersect_with_geometry _ _ aRay r Hg1),
      (Intersect_with_geometry _ _ aRay r Hg2), Hi.
    reflexivity.
  - intros isect0 aPoint aDir aTMax. unfold Occluded. rewrite Hg1, Hg2.
    reflexivity.
Qed.

End Reloaded2.

(** ** The further properties at concrete scenes *)

Lemma GetLightPtr_empty_witness :
  mLights Sample.fresh = [] /\
  GetLightPtr Sample.fresh 3 = Fault IndexOutOfRange.
Proof.
  split; [reflexivity|].
  apply (GetLightPtr_empty Sample.fresh 3). reflexivity.
Defined.

Lemma GetMaterial_unchecked_witness :
  length (mMaterials Sample.cornell) = 8%nat /\
  GetMaterial Sample.cornell 8 = Fault IndexOutOfRange.
Proof.
  assert (Hlen : length (mMaterials Sample.cornell) = 8%nat) by reflexivity.
  split; [exact Hlen|].
  apply (GetMaterial_unchecked Sample.cornell 8).
  - unfold in_int. lia.
  - rewrite Hlen. lia.
  - right. rewrite Hlen. lia.
Defined.

Lemma Intersect_changes_only_lightID_witness :
  Intersect (E := Sample.externals) (Sample.one_triangle 0) Sample.ray0 Sample.isect0
    = Done (true, set_lightID 0 Sample.isect0) /\
  matID (set_lightID 0 Sample.isect0)
    = matID (snd (Sample.Intersect
                    (GeometryList
                       [Triangle (Vec3f.mk (F32.neg F32.one) (F32.neg F32.one) F32.zero)
                          (Vec3f.mk F32.one (F32.neg F32.one) F32.zero)
                          (Vec3f.mk F32.one F32.one F32.zero) 0])
                    Sample.ray0 Sample.isect0)).
Proof.
  assert (H : Intersect (E := Sample.externals) (Sample.one_triangle 0)
                Sample.ray0 Sample.isect0
              = Done (true, set_lightID 0 Sample.isect0))
    by (vm_compute; reflexivity).
  split; [exact H|].
  apply (Intersect_changes_only_lightID (E := Sample.externals)
           (Sample.one_triangle 0) _ Sample.ray0 Sample.isect0 _ true eq_refl H).
Defined.

Lemma LoadCornellBox_material_ids_witness :
  In (Triangle (corner 0) (corner 4) (corner 5) 5) (cornell_geometry Default) /\
  exists k mat,
    prim_matID (Triangle (corner 0) (corner 4) (corner 5) 5) = Some k /\
    0 <= k < 8 /\
    GetMaterial Sample.cornell k = Done mat /\
    (mMaterials Sample.fresh = [] ->
     cornell_materials (E := Sample.externals) !! Z.to_nat k = Some mat).
Proof.
  assert (Hin : In (Triangle (corner 0) (corner 4) (corner 5) 5)
                  (cornell_geometry Default)) by (left; reflexivity).
  split; [exact Hin|].
  apply (LoadCornellBox_material_ids (E := Sample.externals) (mkVec2i 512 512)
           Default Sample.fresh (cornell_geometry Default)
           (Triangle (corner 0) (corner 4) (corner 5) 5)).
  - reflexivity.
  - exact Hin.
Defined.

Lemma LoadCornellBox_light_count_witness :
  Z.of_nat (length (mLights Sample.fresh)) + 3 < 2 ^ 31 /\
  GetLightCount
    (LoadCornellBox (E := Sample.externals) (mkVec2i 512 512) 15 Sample.fresh).1
  = 5.
Proof.
  split; [reflexivity|].
  apply (LoadCornellBox_light_count (E := Sample.externals) (mkVec2i 512 512) 15
           Sample.fresh).
  reflexivity.
Defined.

Lemma LoadCornellBox_background_witness :
  exists bg,
    GetBackground
      (LoadCornellBox (E := Sample.externals) (mkVec2i 512 512) 8 Sample.fresh).1
    = Some bg /\
    last (mLights
            (LoadCornellBox (E := Sample.externals) (mkVec2i 512 512) 8 Sample.fresh).1)
    = Some (Some (Background bg)).
Proof.
  apply (LoadCornellBox_background (E := Sample.externals) (mkVec2i 512 512) 8
           Sample.fresh).
  reflexivity.
Defined.

Lemma LoadCornellBox_index_grows_witness :
  mMaterial2Light
    (LoadCornellBox (E := Sample.externals) (mkVec2i 512 512) 2 Sample.cornell).1
  = mMaterial2Light Sample.cornell.
Proof.
  apply (LoadCornellBox_index_grows (E := Sample.externals) (mkVec2i 512 512) 2
           Sample.cornell).
  reflexivity.
Defined.

Lemma LoadCornellBox_emitters_witness :
  mMaterial2Light Sample.fresh = ∅ /\
  mMaterial2Light Sample.cornell !! 0 = Some 0 /\
  exists a b c i,
    In (Triangle a b c 0) (cornell_geometry Default) /\
    GetLightPtr Sample.cornell 0 = Done (Some (AreaLight a b c i)).
Proof.
  split; [reflexivity|].
  assert (H : mMaterial2Light Sample.cornell !! 0 = Some 0)
    by (vm_compute; reflexivity).
  split; [exact H|].
  apply (LoadCornellBox_emitters (E := Sample.externals) (mkVec2i 512 512)
           Default Sample.fresh (cornell_geometry Default) 0 0).
  - reflexivity.
  - reflexivity.
  - exact H.
Defined.

Lemma loaded_cornell : loaded (E := Sample.externals) Sample.cornell.
Proof. apply loaded_again, loaded_new. Qed.

Lemma loaded_hit_light_witness :
  Intersect (E := Sample.externals) Sample.cornell Sample.ray0 Sample.isect0
    = Done (true, mkIsect (F32.dec 1 36) 4 (-1) Sample.origin) /\
  (lightID (mkIsect (F32.dec 1 36) 4 (-1) Sample.origin) = -1 \/
   exists a b c i,
     GetLightPtr Sample.cornell (lightID (mkIsect (F32.dec 1 36) 4 (-1) Sample.origin))
     = Done (Some (AreaLight a b c i))).
Proof.
  assert (H : Intersect (E := Sample.externals) Sample.cornell Sample.ray0
                Sample.isect0
              = Done (true, mkIsect (F32.dec 1 36) 4 (-1) Sample.origin))
    by (vm_compute; reflexivity).
  split; [exact H|].
  apply (loaded_hit_light (E := Sample.externals) Sample.cornell Sample.ray0
           Sample.isect0 _ loaded_cornell).
  - vm_compute. reflexivity.
  - exact H.
Defined.

Lemma reloaded_light_index_witness :
  loaded (E := Sample.externals)
    (LoadCornellBox (E := Sample.externals) (mkVec2i 512 512) 2 Sample.cornell).1 /\
  light_index_valid
    (LoadCornellBox (E := Sample.externals) (mkVec2i 512 512) 2 Sample.cornell).1.
Proof.
  assert (H : loaded (E := Sample.externals)
                (LoadCornellBox (E := Sample.externals) (mkVec2i 512 512) 2
                   Sample.cornell).1)
    by apply loaded_again, loaded_cornell.
  split; [exact H|].
  apply (reloaded_light_index (E := Sample.externals) _ H).
Defined.

Lemma LoadCornellBox_light_options_queries_witness :
  Z.testbit 1 0 = Z.testbit 15 0 /\
  forall aRay r,
    Intersect (E := Sample.externals)
      (LoadCornellBox (E := Sample.externals) (mkVec2i 512 512) 1 Sample.fresh).1
      aRay r
    = Intersect (E := Sample.externals)
        (LoadCornellBox (E := Sample.externals) (mkVec2i 512 512) 15 Sample.fresh).1
        aRay r.
Proof.
  split; [reflexivity|].
  apply (LoadCornellBox_light_options_queries (E := Sample.externals)
           (mkVec2i 512 512) 1 15 Sample.fresh); reflexivity.
Defined.

Lemma BuildSceneSphere_frame_witness :
  BuildSceneSphere (E := Sample.externals) Sample.unit_cube
    = Done (set_mSceneSphere
              (mkSceneSphere Sample.origin (F32.sqrt (F32.of_Z 3))
                 (F32.div F32.one (Sqr (F32.sqrt (F32.of_Z 3)))))
              Sample.unit_cube) /\
  forall i,
    GetLightPtr
      (set_mSceneSphere
         (mkSceneSphere Sample.origin (F32.sqrt (F32.of_Z 3))
            (F32.div F32.one (Sqr (F32.sqrt (F32.of_Z 3)))))
         Sample.unit_cube) i
    = GetLightPtr Sample.unit_cube i.
Proof.
  assert (H := sample_sphere).
  split; [exact H|].
  apply (BuildSceneSphere_frame (E := Sample.externals) Sample.unit_cube _ H).
Defined.

Lemma BuildSceneSphere_not_negative_witness :
  BuildSceneSphere (E := Sample.externals) Sample.unit_cube
    = Done (set_mSceneSphere
              (mkSceneSphere Sample.origin (F32.sqrt (F32.of_Z 3))
                 (F32.div F32.one (Sqr (F32.sqrt (F32.of_Z 3)))))
              Sample.unit_cube) /\
  not_negative (F32.sqrt (F32.of_Z 3)) = true /\
  not_negative (F32.div F32.one (Sqr (F32.sqrt (F32.of_Z 3)))) = true.
Proof.
  assert (H := sample_sphere).
  split; [exact H|].
  apply (BuildSceneSphere_not_negative (E := Sample.externals) Sample.unit_cube _ H).
Defined.

Lemma BuildSceneSphere_nothing_grown_witness :
  mGeometry Sample.empty_list = Some (GeometryList []) /\
  BuildSceneSphere (E := Sample.externals) Sample.empty_list
  = Done (set_mSceneSphere
            (mkSceneSphere (Vec3f.splat (S754_zero false)) (S754_infinity false)
               (S754_zero false)) Sample.empty_list).
Proof.
  split; [reflexivity|].
  apply (BuildSceneSphere_nothing_grown (E := Sample.externals) Sample.empty_list
           (GeometryList [])); reflexivity.
Defined.

Lemma LoadCornellBox_replaces_geometry_witness :
  mSceneSphere
    (LoadCornellBox (E := Sample.externals) (mkVec2i 512 512) Default Sample.unit_cube).1
  = mSceneSphere Sample.unit_cube.
Proof.
  destruct (LoadCornellBox_builds (E := Sample.externals) (mkVec2i 512 512)
              Default Sample.unit_cube) as [sa Ha].
  destruct (LoadCornellBox_builds (E := Sample.externals) (mkVec2i 512 512)
              Default Sample.fresh) as [sb Hb].
  apply (LoadCornellBox_replaces_geometry (E := Sample.externals) (mkVec2i 512 512)
           Default Sample.unit_cube Sample.fresh sa sb Ha Hb).
Defined.
